(** * rateslib: the bracketed root solver [brents] of cextensions.pyx

    A shallow embedding of [brents] and the properties of its loop.

    Numbers.  The Python code computes on floats, and the code is embedded
    twice.  The first embedding reads every float as an exact rational
    ([Q]): its arithmetic is the exact arithmetic the algorithm is designed
    for, and it carries what depends on that arithmetic (the width of the
    bracket, the sign change, the formulas of the candidate).  Rounding,
    overflow, underflow and nan are outside of it.  The second embedding,
    [Double], is the same code on binary64 values: it carries what the
    program does on every input, and the runs on which rounding, underflow
    or nan decide.  The runs on which the exact embedding departs from a
    claim use values on which float arithmetic is exact as well.

    Effects.  The code calls the objective [f], divides (Python raises
    [ZeroDivisionError] on a zero divisor), raises [ValueError] on a
    bad bracket, and reads the local [d], which is unbound until the
    first iteration has assigned it.  All of that is kept: a computation
    threads the log of the arguments [f] was called on, and ends in a
    value, in a raised exception, or (for the loop, which is run on fuel)
    in [OutOfFuel]. *)

From Stdlib Require Import QArith Qabs ZArith List Bool Lia Lqa.
From Stdlib Require Floats.
Import ListNotations.

Open Scope Q_scope.

(** ** Outcomes and the monad of logged computations *)

Inductive exn : Type :=
| ValueError
| ZeroDivisionError
| UnboundLocalError.

Inductive result (A : Type) : Type :=
| Ok (a : A)
| Raise (e : exn)
| OutOfFuel.

Arguments Ok {A} a.
Arguments Raise {A} e.
Arguments OutOfFuel {A}.

Definition bindR {A B : Type} (r : result A) (k : A -> result B) : result B :=
  match r with
  | Ok a => k a
  | Raise e => Raise e
  | OutOfFuel => OutOfFuel
  end.

(** A computation takes the log of calls made so far and gives its outcome
    and the extended log. *)
Definition M (A : Type) : Type := list Q -> result A * list Q.

Definition ret {A : Type} (a : A) : M A := fun log => (Ok a, log).

Definition raise {A : Type} (e : exn) : M A := fun log => (Raise e, log).

Definition bind {A B : Type} (m : M A) (k : A -> M B) : M B :=
  fun log =>
    match m log with
    | (Ok a, log') => k a log'
    | (Raise e, log') => (Raise e, log')
    | (OutOfFuel, log') => (OutOfFuel, log')
    end.

Definition lift {A : Type} (r : result A) : M A := fun log => (r, log).

(** [f(x)]: the call is appended to the log. *)
Definition call (f : Q -> Q) (x : Q) : M Q := fun log => (Ok (f x), log ++ [x]).

Declare Scope brents_scope.
Delimit Scope brents_scope with brents.

Notation "x <- m ;; k" := (bind m (fun x => k))
  (at level 61, m at next level, right associativity) : brents_scope.
Notation "x <~ r ;; k" := (bindR r (fun x => k))
  (at level 61, r at next level, right associativity) : brents_scope.

Open Scope brents_scope.

(** ** Float operations *)

(** [a < b] on floats. *)
Definition Qltb (a b : Q) : bool := negb (Qle_bool b a).

(** [a >= b] on floats. *)
Definition Qgeb (a b : Q) : bool := Qle_bool b a.

(** [a != b] on floats. *)
Definition Qneqb (a b : Q) : bool := negb (Qeq_bool a b).

(** [a / b] where [b] is computed: Python raises on a zero divisor. *)
Definition div (a b : Q) : result Q :=
  if Qeq_bool b 0 then Raise ZeroDivisionError else Ok (a / b).

(** Python's [p or q] and [p and q] evaluate [q] only when [p] does not
    decide; an exception in the operand that is evaluated propagates. *)
Definition or_else (p q : result bool) : result bool :=
  b <~ p ;; if b then Ok true else q.

Definition and_then (p q : result bool) : result bool :=
  b <~ p ;; if b then q else Ok false.

Infix "|||" := or_else (at level 50, left associativity) : brents_scope.
Infix "&&&" := and_then (at level 40, left associativity) : brents_scope.

(** Reading a local that may still be unbound. *)
Definition read (v : option Q) : result Q :=
  match v with
  | Some q => Ok q
  | None => Raise UnboundLocalError
  end.

(** ** The loop state

    The locals that live across iterations.  [fx0], [fx1], [fx2], [new] and
    [fnew] are assigned in every iteration before they are read, so they are
    locals of [body]; [d] is unbound ([None]) until an iteration assigns it. *)

Record state : Type := mkState {
  x0 : Q;
  x1 : Q;
  x2 : Q;
  d : option Q;
  mflag : bool;
  steps_taken : Z
}.

Section Brents.

Variable f : Q -> Q.
Variable max_iter : Z.
Variable tolerance : Q.

(** Lines 31-38: the candidate [new]. *)
Definition candidate (fx0 fx1 fx2 : Q) (st : state) : result Q :=
  if Qneqb fx0 fx2 && Qneqb fx1 fx2 then
    L0 <~ div (x0 st * fx1 * fx2) ((fx0 - fx1) * (fx0 - fx2)) ;;
    L1 <~ div (x1 st * fx0 * fx2) ((fx1 - fx0) * (fx1 - fx2)) ;;
    L2 <~ div (x2 st * fx1 * fx0) ((fx2 - fx0) * (fx2 - fx1)) ;;
    Ok (L0 + L1 + L2)
  else
    q <~ div (fx1 * (x1 st - x0 st)) (fx1 - fx0) ;;
    Ok (x1 st - q).

(** Lines 40-44: the test that rejects the candidate, with Python's
    evaluation order. *)
Definition rejects (new : Q) (st : state) : result bool :=
  (Ok (Qltb new ((3 * x0 st + x1 st) / 4)) ||| Ok (Qltb (x1 st) new))
  ||| (Ok (eqb (mflag st) true)
       &&& Ok (Qgeb (Qabs (new - x1 st)) (Qabs (x1 st - x2 st) / 2)))
  ||| (Ok (eqb (mflag st) false)
       &&& (dv <~ read (d st) ;;
            Ok (Qgeb (Qabs (new - x1 st)) (Qabs (x2 st - dv) / 2))))
  ||| (Ok (eqb (mflag st) true)
       &&& Ok (Qltb (Qabs (x1 st - x2 st)) tolerance))
  ||| (Ok (eqb (mflag st) false)
       &&& (dv <~ read (d st) ;;
            Ok (Qltb (Qabs (x2 st - dv)) tolerance))).

(** Lines 40-49: the step that is taken, and the new flag. *)
Definition acceptance (new : Q) (st : state) : result (Q * bool) :=
  r <~ rejects new st ;;
  if r then Ok ((x0 st + x1 st) / 2, true) else Ok (new, false).

(** Lines 52-62: history shift, bracket update, swap and count. *)
Definition update (fx0 fx1 fnew new : Q) (mflag' : bool) (st : state) : state :=
  let d' := Some (x2 st) in
  let x2' := x1 st in
  let '(a, b) :=
    if Qltb (fx0 * fnew) 0 then (x0 st, new) else (new, x1 st) in
  let '(a, b) :=
    if Qltb (Qabs fx0) (Qabs fx1) then (b, a) else (a, b) in
  mkState a b x2' d' mflag' (steps_taken st + 1).

(** Lines 27-62: one iteration. *)
Definition body (st : state) : M state :=
  fx0 <- call f (x0 st) ;;
  fx1 <- call f (x1 st) ;;
  fx2 <- call f (x2 st) ;;
  new <- lift (candidate fx0 fx1 fx2 st) ;;
  nm <- lift (acceptance new st) ;;
  fnew <- call f (fst nm) ;;
  ret (update fx0 fx1 fnew (fst nm) (snd nm) st).

(** Line 26: the loop test. *)
Definition cond (st : state) : bool :=
  (steps_taken st <? max_iter)%Z && Qltb tolerance (Qabs (x1 st - x0 st)).

(** Lines 26-62: the loop, on fuel. *)
Fixpoint loop (fuel : nat) (st : state) : M state :=
  if cond st then
    match fuel with
    | O => fun log => (OutOfFuel, log)
    | S k => st' <- body st ;; loop k st'
    end
  else ret st.

(** The states the loop test is evaluated in, from [st0] on, with the
    number of iterations completed since: [st0] itself, and the state each
    completed iteration leaves. *)
Inductive loop_head (st0 : state) : nat -> state -> Prop :=
| head_first : loop_head st0 O st0
| head_next (n : nat) (st st' : state) (log log' : list Q) :
    loop_head st0 n st ->
    cond st = true ->
    body st log = (Ok st', log') ->
    loop_head st0 (S n) st'.

(** Lines 9-24: bracket check, normalization and the initial locals. *)
Definition init (a b : Q) : M state :=
  fx0 <- call f a ;;
  fx1 <- call f b ;;
  if Qltb 0 (fx0 * fx1) then raise ValueError
  else
    let '(a', b') := if Qltb (Qabs fx0) (Qabs fx1) then (b, a) else (a, b) in
    ret (mkState a' b' a' None true 0).

(** The state the call ends in.  Every iteration adds one to [steps_taken],
    so [max_iter] iterations are all the loop can make (see
    [loop_fuel_enough]). *)
Definition brents_state (a b : Q) : M state :=
  st <- init a b ;; loop (Z.to_nat max_iter) st.

(** Line 64: the returned pair. *)
Definition brents (a b : Q) : M (Q * Z) :=
  st <- brents_state a b ;; ret (x1 st, steps_taken st).

End Brents.

(** A run from the empty log. *)
Definition run {A : Type} (m : M A) : result A * list Q := m [].

(** ** The specification's formulas

    Written after the specification's words, to be compared with [candidate]
    and [acceptance]. *)

(** Inverse quadratic interpolation: [L0] and its two cyclic counterparts. *)
Definition inverse_quadratic_spec (x0 x1 x2 fx0 fx1 fx2 : Q) : Q :=
  x0 * fx1 * fx2 / ((fx0 - fx1) * (fx0 - fx2))
  + x1 * fx2 * fx0 / ((fx1 - fx2) * (fx1 - fx0))
  + x2 * fx0 * fx1 / ((fx2 - fx0) * (fx2 - fx1)).

(** The secant step. *)
Definition secant_spec (x0 x1 fx0 fx1 : Q) : Q :=
  x1 - fx1 * (x1 - x0) / (fx1 - fx0).

(** The five conditions that reject a candidate; [dv] is the value of [d],
    which only the conditions with [mflag] false mention. *)
Definition rejected_spec (tolerance new : Q) (st : state) (dv : Q) : Prop :=
  (new < (3 * x0 st + x1 st) / 4 \/ x1 st < new) \/
  (mflag st = true /\ Qabs (x1 st - x2 st) / 2 <= Qabs (new - x1 st)) \/
  (mflag st = false /\ Qabs (x2 st - dv) / 2 <= Qabs (new - x1 st)) \/
  (mflag st = true /\ Qabs (x1 st - x2 st) < tolerance) \/
  (mflag st = false /\ Qabs (x2 st - dv) < tolerance).

(** ** Concrete runs *)

Definition f_linear (x : Q) : Q := x - 5.

(** [f(x) = x - 5] up to 5, then a ramp of slope 2 up to 7.5, then the
    constant 5: continuous, negative at 0 and positive at 10. *)
Definition f_ramp (x : Q) : Q :=
  if Qle_bool x 5 then x - 5
  else if Qle_bool x (15 # 2) then 2 * (x - 5)
  else 5.

(** [f(x) = x^2 - 2]. *)
Definition f_square (x : Q) : Q := x * x - 2.

(** [f(x) = x (x - 1)], with the roots 0 and 1. *)
Definition f_two_roots (x : Q) : Q := x * (x - 1).

(** The defaults of the signature: [max_iter = 50], [tolerance = 1e-12]. *)
Definition default_max_iter : Z := 50.

Definition default_tolerance : Q := 1 # 1000000000000.

(** [x] lies in the closed interval with the endpoints [a] and [b], in
    whichever order they come. *)
Definition between (a b x : Q) : Prop := a <= x <= b \/ b <= x <= a.

(** What is kept about the state and the call log at every loop test of a
    call on the bracket [a], [b]: the three points of the state lie in the
    bracket and are points [f] was called on, [f] was called inside the
    bracket only, and four times per completed iteration after the two
    calls of the bracket check. *)
Definition call_inv (max_iter : Z) (a b : Q) (st : state) (log : list Q) : Prop :=
  (between a b (x0 st) /\ between a b (x1 st) /\ between a b (x2 st)) /\
  (In (x0 st) log /\ In (x1 st) log /\ In (x2 st) log) /\
  Forall (between a b) log /\
  Z.of_nat (length log) = (2 + 4 * steps_taken st)%Z /\
  (0 <= steps_taken st <= Z.max 0 max_iter)%Z.

(** What is kept about the call log however the call ends. *)
Definition log_inv (max_iter : Z) (a b : Q) (log : list Q) : Prop :=
  Forall (between a b) log /\
  (Z.of_nat (length log) <= 2 + 4 * Z.max 0 max_iter)%Z.

(** ** The same code on doubles

    The program as it runs: every number is a binary64 value with IEEE
    arithmetic (round to nearest, signed zeros, infinities, nan).  The
    operators are Python's on floats: a comparison with nan is false,
    [!=] is the negation of [==], and [/] raises on a divisor that
    compares equal to zero and divides otherwise (so [inf / inf] is nan
    and raises nothing).  The integer literals 0, 2, 3 and 4 of the source
    are exact as doubles. *)

Module Double.

Import PrimFloat.

Declare Scope double_scope.
Local Open Scope float_scope.
Local Open Scope double_scope.

Definition M (A : Type) : Type := list float -> result A * list float.

Definition ret {A : Type} (a : A) : M A := fun log => (Ok a, log).

Definition raise {A : Type} (e : exn) : M A := fun log => (Raise e, log).

Definition bind {A B : Type} (m : M A) (k : A -> M B) : M B :=
  fun log =>
    match m log with
    | (Ok a, log') => k a log'
    | (Raise e, log') => (Raise e, log')
    | (OutOfFuel, log') => (OutOfFuel, log')
    end.

Definition lift {A : Type} (r : result A) : M A := fun log => (r, log).

Definition call (f : float -> float) (x : float) : M float :=
  fun log => (Ok (f x), log ++ [x]).

Notation "x <- m ;; k" := (bind m (fun x => k))
  (at level 61, m at next level, right associativity) : double_scope.

(** [a / b] on Python floats. *)
Definition div (a b : float) : result float :=
  if b =? 0 then Raise ZeroDivisionError else Ok (a / b).

Definition read (v : option float) : result float :=
  match v with
  | Some q => Ok q
  | None => Raise UnboundLocalError
  end.

Record state : Type := mkState {
  x0 : float;
  x1 : float;
  x2 : float;
  d : option float;
  mflag : bool;
  steps_taken : Z
}.

Section Brents.

Variable f : float -> float.
Variable max_iter : Z.
Variable tolerance : float.

(** Lines 31-38. *)
Definition candidate (fx0 fx1 fx2 : float) (st : state) : result float :=
  if negb (fx0 =? fx2) && negb (fx1 =? fx2) then
    L0 <~ div (x0 st * fx1 * fx2) ((fx0 - fx1) * (fx0 - fx2)) ;;
    L1 <~ div (x1 st * fx0 * fx2) ((fx1 - fx0) * (fx1 - fx2)) ;;
    L2 <~ div (x2 st * fx1 * fx0) ((fx2 - fx0) * (fx2 - fx1)) ;;
    Ok (L0 + L1 + L2)
  else
    q <~ div (fx1 * (x1 st - x0 st)) (fx1 - fx0) ;;
    Ok (x1 st - q).

(** Lines 40-44. *)
Definition rejects (new : float) (st : state) : result bool :=
  (Ok (new <? (3 * x0 st + x1 st) / 4) ||| Ok (x1 st <? new))
  ||| (Ok (Bool.eqb (mflag st) true)
       &&& Ok (abs (x1 st - x2 st) / 2 <=? abs (new - x1 st)))
  ||| (Ok (Bool.eqb (mflag st) false)
       &&& (dv <~ read (d st) ;;
            Ok (abs (x2 st - dv) / 2 <=? abs (new - x1 st))))
  ||| (Ok (Bool.eqb (mflag st) true)
       &&& Ok (abs (x1 st - x2 st) <? tolerance))
  ||| (Ok (Bool.eqb (mflag st) false)
       &&& (dv <~ read (d st) ;;
            Ok (abs (x2 st - dv) <? tolerance))).

(** Lines 40-49. *)
Definition acceptance (new : float) (st : state) : result (float * bool) :=
  r <~ rejects new st ;;
  if r then Ok ((x0 st + x1 st) / 2, true) else Ok (new, false).

(** Lines 52-62. *)
Definition update (fx0 fx1 fnew new : float) (mflag' : bool) (st : state) :
    state :=
  let d' := Some (x2 st) in
  let x2' := x1 st in
  let '(a, b) :=
    if fx0 * fnew <? 0 then (x0 st, new) else (new, x1 st) in
  let '(a, b) :=
    if abs fx0 <? abs fx1 then (b, a) else (a, b) in
  mkState a b x2' d' mflag' (steps_taken st + 1)%Z.

(** Lines 27-62. *)
Definition body (st : state) : M state :=
  fx0 <- call f (x0 st) ;;
  fx1 <- call f (x1 st) ;;
  fx2 <- call f (x2 st) ;;
  new <- lift (candidate fx0 fx1 fx2 st) ;;
  nm <- lift (acceptance new st) ;;
  fnew <- call f (fst nm) ;;
  ret (update fx0 fx1 fnew (fst nm) (snd nm) st).

(** Line 26. *)
Definition cond (st : state) : bool :=
  (steps_taken st <? max_iter)%Z && (tolerance <? abs (x1 st - x0 st)).

(** Lines 26-62, on fuel. *)
Fixpoint loop (fuel : nat) (st : state) : M state :=
  if cond st then
    match fuel with
    | O => fun log => (OutOfFuel, log)
    | S k => st' <- body st ;; loop k st'
    end
  else ret st.

Inductive loop_head (st0 : state) : nat -> state -> Prop :=
| head_first : loop_head st0 O st0
| head_next (n : nat) (st st' : state) (log log' : list float) :
    loop_head st0 n st ->
    cond st = true ->
    body st log = (Ok st', log') ->
    loop_head st0 (S n) st'.

(** Lines 9-24. *)
Definition init (a b : float) : M state :=
  fx0 <- call f a ;;
  fx1 <- call f b ;;
  if 0 <? fx0 * fx1 then raise ValueError
  else
    let '(a', b') := if abs fx0 <? abs fx1 then (b, a) else (a, b) in
    ret (mkState a' b' a' None true 0).

Definition brents_state (a b : float) : M state :=
  st <- init a b ;; loop (Z.to_nat max_iter) st.

(** Line 64. *)
Definition brents (a b : float) : M (float * Z) :=
  st <- brents_state a b ;; ret (x1 st, steps_taken st).

End Brents.

Definition run {A : Type} (m : M A) : result A * list float := m [].

(** The double nearest to [1e-12], the default tolerance. *)
Definition default_tolerance : float := 0x1.19799812dea11p-40.

(** [f(x) = x - 5]. *)
Definition f_linear (x : float) : float := x - 5.

(** [f(x) = 2^-600 (x + 5)]: positive on [0, 10]. *)
Definition f_tiny (x : float) : float := 0x1p-600 * (x + 5).

(** [f(x) = 2^-600 (x - 5)]. *)
Definition f_tiny_linear (x : float) : float := 0x1p-600 * (x - 5).

(** [f(x) = 2^1020 (x - 5)]. *)
Definition f_huge_linear (x : float) : float := 0x1p1020 * (x - 5).

(** [f(x) = x - 5] up to 5, a ramp of slope 2 up to 7.5, then 5. *)
Definition f_ramp (x : float) : float :=
  if x <=? 5 then x - 5
  else if x <=? 7.5 then 2 * (x - 5)
  else 5.

(** [f(x) = x^2 - 2]. *)
Definition f_square (x : float) : float := x * x - 2.

End Double.

(** ** Comparisons *)

Lemma Qltb_true (a b : Q) : Qltb a b = true <-> a < b.
Proof.
  unfold Qltb. rewrite negb_true_iff.
  split; intro H.
  - apply Qnot_le_lt. intro Hle. apply Qle_bool_iff in Hle. congruence.
  - destruct (Qle_bool b a) eqn:E; [|reflexivity].
    apply Qle_bool_iff in E. exfalso. exact (Qlt_not_le _ _ H E).
Qed.

Lemma Qltb_false (a b : Q) : Qltb a b = false <-> b <= a.
Proof.
  unfold Qltb. rewrite negb_false_iff. apply Qle_bool_iff.
Qed.

Lemma Qgeb_true (a b : Q) : Qgeb a b = true <-> b <= a.
Proof. unfold Qgeb. apply Qle_bool_iff. Qed.

Lemma Qgeb_false (a b : Q) : Qgeb a b = false <-> a < b.
Proof.
  unfold Qgeb. split; intro H.
  - apply Qnot_le_lt. intro Hle. apply Qle_bool_iff in Hle. congruence.
  - destruct (Qle_bool b a) eqn:E; [|reflexivity].
    apply Qle_bool_iff in E. exfalso. exact (Qlt_not_le _ _ H E).
Qed.

Lemma Qneqb_true (a b : Q) : Qneqb a b = true <-> ~ a == b.
Proof.
  unfold Qneqb. rewrite negb_true_iff. split; intro H.
  - apply Qeq_bool_neq. exact H.
  - destruct (Qeq_bool a b) eqn:E; [|reflexivity].
    apply Qeq_bool_iff in E. contradiction.
Qed.

Lemma Qneqb_false (a b : Q) : Qneqb a b = false <-> a == b.
Proof.
  unfold Qneqb. rewrite negb_false_iff. apply Qeq_bool_iff.
Qed.

Lemma div_nonzero (a b : Q) : ~ b == 0 -> div a b = Ok (a / b).
Proof.
  intro H. unfold div. destruct (Qeq_bool b 0) eqn:E; [|reflexivity].
  apply Qeq_bool_iff in E. contradiction.
Qed.

Lemma div_zero (a b : Q) : b == 0 -> div a b = Raise ZeroDivisionError.
Proof.
  intro H. unfold div. apply Qeq_bool_iff in H. rewrite H. reflexivity.
Qed.

Lemma div_cases (a b : Q) :
  div a b = Ok (a / b) \/ div a b = Raise ZeroDivisionError.
Proof. unfold div. destruct (Qeq_bool b 0); auto. Qed.

(** Evaluates a chain of Python tests in its order, one comparison at a
    time, and turns each outcome into the order it states. *)
Ltac eval_test :=
  cbn [eqb or_else and_then bindR read];
  repeat (match goal with
          | |- context [Qltb ?a ?b] =>
              let E := fresh "E" in
              destruct (Qltb a b) eqn:E;
              [apply Qltb_true in E | apply Qltb_false in E]
          | |- context [Qgeb ?a ?b] =>
              let E := fresh "E" in
              destruct (Qgeb a b) eqn:E;
              [apply Qgeb_true in E | apply Qgeb_false in E]
          end;
          cbn [eqb or_else and_then bindR read]).

(** Linear arithmetic where the divisors are the constants 2 and 4. *)
Ltac lra_const :=
  unfold Qdiv in *;
  change (/ 2) with (1 # 2) in *;
  change (/ 4) with (1 # 4) in *;
  lra.

(** ** The shape of one iteration *)

Section BodyFacts.

Variable f : Q -> Q.
Variable max_iter : Z.
Variable tolerance : Q.

Lemma candidate_cases (fx0 fx1 fx2 : Q) (st : state) :
  (exists new, candidate fx0 fx1 fx2 st = Ok new) \/
  candidate fx0 fx1 fx2 st = Raise ZeroDivisionError.
Proof.
  unfold candidate.
  destruct (Qneqb fx0 fx2 && Qneqb fx1 fx2).
  - destruct (div_cases (x0 st * fx1 * fx2) ((fx0 - fx1) * (fx0 - fx2))) as [E|E];
      rewrite E; simpl; [|now right].
    destruct (div_cases (x1 st * fx0 * fx2) ((fx1 - fx0) * (fx1 - fx2))) as [E1|E1];
      rewrite E1; simpl; [|now right].
    destruct (div_cases (x2 st * fx1 * fx0) ((fx2 - fx0) * (fx2 - fx1))) as [E2|E2];
      rewrite E2; simpl; [|now right].
    left. eexists. reflexivity.
  - destruct (div_cases (fx1 * (x1 st - x0 st)) (fx1 - fx0)) as [E|E];
      rewrite E; simpl; [|now right].
    left. eexists. reflexivity.
Qed.

(** The test reads [d] only when [mflag] is false, and raises nothing but
    [UnboundLocalError]. *)
Lemma rejects_cases (new : Q) (st : state) :
  (exists r, rejects tolerance new st = Ok r) \/
  (rejects tolerance new st = Raise UnboundLocalError /\
   mflag st = false /\ d st = None).
Proof.
  unfold rejects.
  destruct (mflag st), (d st) as [dv|]; simpl;
    repeat (match goal with
            | |- context [Qltb ?a ?b] => destruct (Qltb a b)
            | |- context [Qgeb ?a ?b] => destruct (Qgeb a b)
            end; simpl);
    solve [ left; eexists; reflexivity | right; auto ].
Qed.

Lemma rejects_bound (new : Q) (st : state) :
  (mflag st = false -> d st <> None) ->
  exists r, rejects tolerance new st = Ok r.
Proof.
  intro H. destruct (rejects_cases new st) as [Hr|(_ & Hm & Hd)]; [exact Hr|].
  exfalso. exact (H Hm Hd).
Qed.

Lemma acceptance_cases (new : Q) (st : state) :
  (exists nm, acceptance tolerance new st = Ok nm) \/
  (acceptance tolerance new st = Raise UnboundLocalError /\
   mflag st = false /\ d st = None).
Proof.
  unfold acceptance.
  destruct (rejects_cases new st) as [[r E]|(E & H)]; rewrite E; simpl.
  - left. destruct r; eexists; reflexivity.
  - right. auto.
Qed.

(** What a completed iteration did. *)
Lemma body_Ok (st st' : state) (log log' : list Q) :
  body f tolerance st log = (Ok st', log') ->
  exists new nm,
    candidate (f (x0 st)) (f (x1 st)) (f (x2 st)) st = Ok new /\
    acceptance tolerance new st = Ok nm /\
    st' = update (f (x0 st)) (f (x1 st)) (f (fst nm)) (fst nm) (snd nm) st /\
    log' = log ++ [x0 st; x1 st; x2 st; fst nm].
Proof.
  unfold body, bind, call, lift, ret.
  destruct (candidate (f (x0 st)) (f (x1 st)) (f (x2 st)) st) as [new| |] eqn:Ec;
    try discriminate.
  destruct (acceptance tolerance new st) as [nm| |] eqn:Ea; try discriminate.
  intro H. inversion H; subst. exists new, nm.
  split; [reflexivity|]. split; [exact Ea|]. split; [reflexivity|].
  rewrite <- !app_assoc. reflexivity.
Qed.

(** An iteration completes or raises; it raises [UnboundLocalError] only
    from a state with [mflag] false and [d] unbound. *)
Lemma body_cases (st : state) (log : list Q) :
  (exists st' log', body f tolerance st log = (Ok st', log')) \/
  (exists log', body f tolerance st log = (Raise ZeroDivisionError, log')) \/
  ((exists log', body f tolerance st log = (Raise UnboundLocalError, log')) /\
   mflag st = false /\ d st = None).
Proof.
  unfold body, bind, call, lift, ret.
  destruct (candidate_cases (f (x0 st)) (f (x1 st)) (f (x2 st)) st) as [[new E]|E];
    rewrite E.
  - destruct (acceptance_cases new st) as [[nm E1]|(E1 & H)]; rewrite E1.
    + left. eexists. eexists. reflexivity.
    + right. right. split; [eexists; reflexivity|exact H].
  - right. left. eexists. reflexivity.
Qed.

Lemma update_steps (fx0 fx1 fnew new : Q) (m : bool) (st : state) :
  steps_taken (update fx0 fx1 fnew new m st) = (steps_taken st + 1)%Z.
Proof.
  unfold update.
  destruct (Qltb (fx0 * fnew) 0), (Qltb (Qabs fx0) (Qabs fx1)); reflexivity.
Qed.

Lemma update_d (fx0 fx1 fnew new : Q) (m : bool) (st : state) :
  d (update fx0 fx1 fnew new m st) = Some (x2 st).
Proof.
  unfold update.
  destruct (Qltb (fx0 * fnew) 0), (Qltb (Qabs fx0) (Qabs fx1)); reflexivity.
Qed.

Lemma update_mflag (fx0 fx1 fnew new : Q) (m : bool) (st : state) :
  mflag (update fx0 fx1 fnew new m st) = m.
Proof.
  unfold update.
  destruct (Qltb (fx0 * fnew) 0), (Qltb (Qabs fx0) (Qabs fx1)); reflexivity.
Qed.

Lemma body_steps (st st' : state) (log log' : list Q) :
  body f tolerance st log = (Ok st', log') ->
  steps_taken st' = (steps_taken st + 1)%Z /\
  d st' = Some (x2 st) /\
  length log' = (length log + 4)%nat.
Proof.
  intro H. apply body_Ok in H. destruct H as (new & nm & _ & _ & -> & ->).
  rewrite update_steps, update_d, length_app. simpl. auto.
Qed.

End BodyFacts.

(** ** The loop *)

Section LoopFacts.

Variable f : Q -> Q.
Variable max_iter : Z.
Variable tolerance : Q.

Lemma loop_head_trans (st0 st1 st2 : state) (n m : nat) :
  loop_head f max_iter tolerance st0 n st1 ->
  loop_head f max_iter tolerance st1 m st2 ->
  loop_head f max_iter tolerance st0 (m + n) st2.
Proof.
  intros H1 H2. induction H2 as [|k st st' log log' _ IH Hc Hb].
  - exact H1.
  - exact (head_next _ _ _ _ _ _ _ _ _ IH Hc Hb).
Qed.

(** Every completed iteration counts one step. *)
Lemma loop_head_steps (st0 st : state) (n : nat) :
  loop_head f max_iter tolerance st0 n st ->
  steps_taken st = (steps_taken st0 + Z.of_nat n)%Z.
Proof.
  induction 1 as [|k st st' log log' _ IH Hc Hb].
  - lia.
  - apply body_steps in Hb. lia.
Qed.

(** The loop on enough fuel: it stops by itself, in a state that fails the
    loop test, or an iteration raises [ZeroDivisionError]. *)
Lemma loop_fuel_enough (fuel : nat) :
  forall (st : state) (log : list Q),
    (max_iter - steps_taken st <= Z.of_nat fuel)%Z ->
    (mflag st = false -> d st <> None) ->
    (exists st' log',
        loop f max_iter tolerance fuel st log = (Ok st', log') /\
        (exists n, loop_head f max_iter tolerance st n st') /\
        cond max_iter tolerance st' = false /\
        (steps_taken st <= steps_taken st')%Z /\
        (steps_taken st' <= Z.max (steps_taken st) max_iter)%Z /\
        Z.of_nat (length log') =
          (Z.of_nat (length log) + 4 * (steps_taken st' - steps_taken st))%Z) \/
    (exists log',
        loop f max_iter tolerance fuel st log = (Raise ZeroDivisionError, log')).
Proof.
  induction fuel as [|k IH]; intros st log Hfuel Hd; cbn [loop].
  - destruct (cond max_iter tolerance st) eqn:Hc.
    + exfalso. unfold cond in Hc. apply andb_true_iff in Hc.
      destruct Hc as [Hc _]. apply Z.ltb_lt in Hc. lia.
    + left. exists st, log. unfold ret.
      split; [reflexivity|]. split; [exists O; constructor|].
      split; [exact Hc|]. lia.
  - destruct (cond max_iter tolerance st) eqn:Hc.
    + assert (Hlt : (steps_taken st < max_iter)%Z).
      { unfold cond in Hc. apply andb_true_iff in Hc.
        destruct Hc as [Hc _]. apply Z.ltb_lt in Hc. exact Hc. }
      unfold bind.
      destruct (body_cases f tolerance st log)
        as [(st1 & log1 & Hb)|[(log1 & Hb)|((log1 & Hb) & Hm & Hn)]].
      * rewrite Hb.
        pose proof (body_steps _ _ _ _ _ _ Hb) as (Hs & Hd1 & Hl).
        destruct (IH st1 log1)
          as [(st' & log' & Hl' & (n & Hh) & Hc' & Hle & Hmax & Hlen)|(log' & Hl')].
        -- lia.
        -- intros _. rewrite Hd1. discriminate.
        -- left. exists st', log'. split; [exact Hl'|].
           split.
           { exists (n + 1)%nat. apply loop_head_trans with st1; [|exact Hh].
             eapply head_next; [constructor|exact Hc|exact Hb]. }
           split; [exact Hc'|]. lia.
        -- right. exists log'. exact Hl'.
      * rewrite Hb. right. exists log1. reflexivity.
      * exfalso. exact (Hd Hm Hn).
    + left. exists st, log. unfold ret.
      split; [reflexivity|]. split; [exists O; constructor|].
      split; [exact Hc|]. lia.
Qed.

(** What the bracket check leaves. *)
Lemma init_cases (a b : Q) (log : list Q) :
  (0 < f a * f b /\ init f a b log = (Raise ValueError, log ++ [a; b])) \/
  (f a * f b <= 0 /\
   init f a b log =
     (Ok (if Qltb (Qabs (f a)) (Qabs (f b))
          then mkState b a b None true 0
          else mkState a b a None true 0), log ++ [a; b])).
Proof.
  unfold init, bind, call, raise, ret. rewrite <- app_assoc. simpl.
  destruct (Qltb 0 (f a * f b)) eqn:E.
  - left. apply Qltb_true in E. auto.
  - right. apply Qltb_false in E. split; [exact E|].
    destruct (Qltb (Qabs (f a)) (Qabs (f b))); reflexivity.
Qed.

End LoopFacts.

(** ** The whole call *)

Section CallFacts.

Variable f : Q -> Q.
Variable max_iter : Z.
Variable tolerance : Q.

Lemma loop_exit (fuel : nat) (st : state) (log : list Q) :
  cond max_iter tolerance st = false ->
  loop f max_iter tolerance fuel st log = (Ok st, log).
Proof.
  intro H. destruct fuel; cbn [loop]; rewrite H; reflexivity.
Qed.

(** The three ways a call can end, with the state the loop started from. *)
Lemma brents_state_cases (a b : Q) :
  (0 < f a * f b /\
   run (brents_state f max_iter tolerance a b) = (Raise ValueError, [a; b])) \/
  (f a * f b <= 0 /\
   exists st0,
     run (init f a b) = (Ok st0, [a; b]) /\
     run (brents_state f max_iter tolerance a b) =
       loop f max_iter tolerance (Z.to_nat max_iter) st0 [a; b] /\
     ((exists st log,
          run (brents_state f max_iter tolerance a b) = (Ok st, log) /\
          loop_head f max_iter tolerance st0 (Z.to_nat (steps_taken st)) st /\
          cond max_iter tolerance st = false /\
          (0 <= steps_taken st <= Z.max 0 max_iter)%Z /\
          Z.of_nat (length log) = (2 + 4 * steps_taken st)%Z) \/
      (exists log,
          run (brents_state f max_iter tolerance a b) =
            (Raise ZeroDivisionError, log)))).
Proof.
  unfold run, brents_state, bind.
  destruct (init_cases f a b []) as [(Hs & E)|(Hs & E)]; rewrite E; cbn [app].
  - left. auto.
  - right. split; [exact Hs|].
    eexists. split; [reflexivity|]. split; [reflexivity|].
    match goal with |- context [loop _ _ _ _ ?s _] => set (st0 := s) end.
    assert (H0 : steps_taken st0 = 0%Z /\ mflag st0 = true).
    { subst st0. destruct (Qltb (Qabs (f a)) (Qabs (f b))); auto. }
    destruct H0 as [H0 Hm].
    destruct (loop_fuel_enough f max_iter tolerance (Z.to_nat max_iter) st0 [a; b])
      as [(st & log & E1 & (n & Hh) & Hc & Hle & Hmax & Hlen)|(log & E1)].
    + rewrite H0. lia.
    + rewrite Hm. discriminate.
    + left. exists st, log. rewrite E1.
      split; [reflexivity|].
      split.
      { pose proof (loop_head_steps _ _ _ _ _ _ Hh) as Hn.
        replace (Z.to_nat (steps_taken st)) with n by lia. exact Hh. }
      split; [exact Hc|].
      rewrite H0 in *. cbn [length] in Hlen. lia.
    + right. exists log. exact E1.
Qed.

Lemma brents_of_state (a b : Q) :
  run (brents f max_iter tolerance a b) =
  match run (brents_state f max_iter tolerance a b) with
  | (Ok st, log) => (Ok (x1 st, steps_taken st), log)
  | (Raise e, log) => (Raise e, log)
  | (OutOfFuel, log) => (OutOfFuel, log)
  end.
Proof.
  unfold run, brents, bind, ret.
  destruct (brents_state f max_iter tolerance a b []) as [[st|e|] log]; reflexivity.
Qed.

End CallFacts.

(** ** The claims *)

(** On exact rationals: a call with a budget [max_iter >= 0] that passes
    the bracket check and divides by no zero returns [(x1, steps_taken)] of
    the state the loop stopped in, after exactly [steps_taken] completed
    iterations, with [steps_taken <= max_iter], and the loop stopped because
    the budget was used up or because [|x1 - x0| <= tolerance]. *)
Lemma brents_returns_exact (f : Q -> Q) (max_iter : Z) (tolerance a b : Q) :
  (0 <= max_iter)%Z ->
  f a * f b <= 0 ->
  fst (run (brents f max_iter tolerance a b)) <> Raise ZeroDivisionError ->
  exists st0 st log,
    run (init f a b) = (Ok st0, [a; b]) /\
    loop_head f max_iter tolerance st0 (Z.to_nat (steps_taken st)) st /\
    run (brents f max_iter tolerance a b) = (Ok (x1 st, steps_taken st), log) /\
    Z.of_nat (length log) = (2 + 4 * steps_taken st)%Z /\
    (0 <= steps_taken st <= max_iter)%Z /\
    (steps_taken st = max_iter \/ Qabs (x1 st - x0 st) <= tolerance).
Proof.
  intros Hmax Hs Hz. rewrite brents_of_state in *.
  destruct (brents_state_cases f max_iter tolerance a b)
    as [(Hp & _)|(_ & st0 & Ei & _ & Hr)].
  - exfalso. exact (Qlt_not_le _ _ Hp Hs).
  - destruct Hr as [(st & log & E & Hh & Hc & Hb & Hlen)|(log & E)].
    + exists st0, st, log. rewrite E.
      split; [exact Ei|]. split; [exact Hh|]. split; [reflexivity|].
      split; [exact Hlen|]. split; [lia|].
      unfold cond in Hc. apply andb_false_iff in Hc. destruct Hc as [Hc|Hc].
      * left. apply Z.ltb_ge in Hc. lia.
      * right. apply Qltb_false in Hc. exact Hc.
    + exfalso. rewrite E in Hz. apply Hz. reflexivity.
Qed.

(** C6.  With [max_iter = 0], or with [|x0 - x1| <= tolerance] at entry, a
    call that passes the bracket check makes no iteration: [f] is called on
    [x0] and [x1] only, and the call returns [(best, 0)] where [best] is the
    endpoint whose value of [f] is smaller in magnitude ([x1] on a tie),
    whatever [f best] is. *)
Theorem no_iteration_C6 (f : Q -> Q) (max_iter : Z) (tolerance a b : Q) :
  f a * f b <= 0 ->
  max_iter = 0%Z \/ Qabs (a - b) <= tolerance ->
  let best := if Qltb (Qabs (f a)) (Qabs (f b)) then a else b in
  let other := if Qltb (Qabs (f a)) (Qabs (f b)) then b else a in
  run (brents f max_iter tolerance a b) = (Ok (best, 0%Z), [a; b]) /\
  Qabs (f best) <= Qabs (f other).
Proof.
  intros Hs Hstop best other. split.
  - rewrite brents_of_state.
    destruct (brents_state_cases f max_iter tolerance a b)
      as [(Hp & _)|(_ & st0 & Ei & El & _)].
    { exfalso. exact (Qlt_not_le _ _ Hp Hs). }
    rewrite El.
    destruct (init_cases f a b []) as [(Hp & _)|(_ & E)].
    { exfalso. exact (Qlt_not_le _ _ Hp Hs). }
    unfold run in Ei. rewrite Ei in E. inversion E as [E0]. clear E.
    assert (Hc : cond max_iter tolerance st0 = false).
    { unfold cond. apply andb_false_iff.
      destruct Hstop as [->|Hw].
      - left. apply Z.ltb_ge. rewrite E0.
        destruct (Qltb (Qabs (f a)) (Qabs (f b))); simpl; lia.
      - right. apply Qltb_false. rewrite E0.
        destruct (Qltb (Qabs (f a)) (Qabs (f b))); cbn [x0 x1];
          [exact Hw | rewrite Qabs_Qminus; exact Hw]. }
    rewrite <- E0, (loop_exit f max_iter tolerance _ _ _ Hc), E0.
    subst best. destruct (Qltb (Qabs (f a)) (Qabs (f b))); reflexivity.
  - subst best other.
    destruct (Qltb (Qabs (f a)) (Qabs (f b))) eqn:E.
    + apply Qltb_true in E. apply Qlt_le_weak. exact E.
    + apply Qltb_false in E. exact E.
Qed.

(** The test does read [d]: with [mflag] false and [d] unbound it raises as
    soon as the range condition has not decided. *)
Example rejects_reads_d :
  rejects default_tolerance 3 (mkState 0 4 8 None false 1) =
    Raise UnboundLocalError.
Proof. reflexivity. Qed.

(** C7.  [d] is never read unbound.  In every state the loop test is
    evaluated in, [mflag] is true or [d] is bound, and the first of these
    states has [mflag] true; the acceptance test reads [d] only with [mflag]
    false, so no call ends in [UnboundLocalError]. *)
Theorem d_bound_before_read_C7 (f : Q -> Q) (max_iter : Z) (tolerance a b : Q) :
  (forall st0 log0 n st,
      run (init f a b) = (Ok st0, log0) ->
      loop_head f max_iter tolerance st0 n st ->
      (n = O -> mflag st = true /\ d st = None) /\
      (mflag st = true \/ exists dv, d st = Some dv) /\
      (forall new, exists r, rejects tolerance new st = Ok r)) /\
  fst (run (brents f max_iter tolerance a b)) <> Raise UnboundLocalError.
Proof.
  split.
  - intros st0 log0 n st Ei Hh.
    assert (H : (n = O -> mflag st = true /\ d st = None) /\
                (mflag st = true \/ exists dv, d st = Some dv)).
    { destruct Hh as [|k st1 st' log log' _ _ Hb].
      - destruct (init_cases f a b []) as [(_ & E)|(_ & E)];
          unfold run in Ei; rewrite Ei in E; inversion E.
        destruct (Qltb (Qabs (f a)) (Qabs (f b))); simpl; auto.
      - split; [discriminate|]. right.
        apply body_steps in Hb. destruct Hb as (_ & -> & _). eexists. reflexivity. }
    destruct H as [H1 H2]. split; [exact H1|]. split; [exact H2|].
    intro new. apply rejects_bound. intros Hm Hn.
    destruct H2 as [H2|[dv H2]]; congruence.
  - rewrite brents_of_state.
    destruct (brents_state_cases f max_iter tolerance a b)
      as [(_ & E)|(_ & st0 & _ & _ & [(st & log & E & _)|(log & E)])];
      rewrite E; discriminate.
Qed.

(** C3.  Where no denominator is zero, the candidate is the inverse
    quadratic interpolation through the three points exactly when
    [f(x0) <> f(x2)] and [f(x1) <> f(x2)], and the secant step otherwise. *)
Theorem candidate_choice_C3 (f : Q -> Q) (st : state) :
  let fx0 := f (x0 st) in
  let fx1 := f (x1 st) in
  let fx2 := f (x2 st) in
  ~ fx0 == fx1 ->
  exists new,
    candidate fx0 fx1 fx2 st = Ok new /\
    (~ fx0 == fx2 /\ ~ fx1 == fx2 ->
     new == inverse_quadratic_spec (x0 st) (x1 st) (x2 st) fx0 fx1 fx2) /\
    (~ (~ fx0 == fx2 /\ ~ fx1 == fx2) ->
     new = secant_spec (x0 st) (x1 st) fx0 fx1).
Proof.
  intros fx0 fx1 fx2 H01. clearbody fx0 fx1 fx2. unfold candidate.
  assert (D10 : ~ fx1 - fx0 == 0) by (intro; apply H01; lra).
  destruct (Qneqb fx0 fx2) eqn:E02; cbn [andb].
  - apply Qneqb_true in E02.
    destruct (Qneqb fx1 fx2) eqn:E12.
    + apply Qneqb_true in E12.
      assert (D01 : ~ fx0 - fx1 == 0) by (intro; apply H01; lra).
      assert (D02 : ~ fx0 - fx2 == 0) by (intro; apply E02; lra).
      assert (D12 : ~ fx1 - fx2 == 0) by (intro; apply E12; lra).
      assert (D20 : ~ fx2 - fx0 == 0) by (intro; apply E02; lra).
      assert (D21 : ~ fx2 - fx1 == 0) by (intro; apply E12; lra).
      rewrite !div_nonzero.
      * cbn [bindR]. eexists. split; [reflexivity|]. split.
        -- intros _. unfold inverse_quadratic_spec. field.
           repeat split; assumption.
        -- intros N. exfalso. apply N. auto.
      * intro H. apply Qmult_integral in H. tauto.
      * intro H. apply Qmult_integral in H. tauto.
      * intro H. apply Qmult_integral in H. tauto.
    + apply Qneqb_false in E12.
      rewrite div_nonzero by exact D10. cbn [bindR].
      eexists. split; [reflexivity|]. split.
      * intros [_ N]. contradiction.
      * intros _. reflexivity.
  - apply Qneqb_false in E02.
    rewrite div_nonzero by exact D10. cbn [bindR].
    eexists. split; [reflexivity|]. split.
    + intros [N _]. contradiction.
    + intros _. reflexivity.
Qed.

(** The acceptance test against the specification's five conditions. *)
Lemma acceptance_rejected_iff (tolerance new : Q) (st : state) (dv : Q) :
  (mflag st = false -> d st = Some dv) ->
  (rejected_spec tolerance new st dv ->
   acceptance tolerance new st = Ok ((x0 st + x1 st) / 2, true)) /\
  (~ rejected_spec tolerance new st dv ->
   acceptance tolerance new st = Ok (new, false)).
Proof.
  intro Hd. unfold acceptance, rejects, rejected_spec.
  destruct (mflag st) eqn:Em.
  - clear Hd. eval_test; split; intro H;
      solve [ reflexivity
            | exfalso; intuition (try discriminate; try lra) ].
  - rewrite (Hd eq_refl). eval_test; split; intro H;
      solve [ reflexivity
            | exfalso; intuition (try discriminate; try lra) ].
Qed.

(** C2.  In an iteration that completes, with [new] the candidate of lines
    31-38: when one of the five conditions holds, the step is the midpoint
    [(x0 + x1) / 2] ([f] is called on it) and [mflag] is set true; when
    none holds, the step is [new] itself and [mflag] is set false.  [dv] is
    the value of [d], which is bound wherever [mflag] is false. *)
Theorem acceptance_test_C2 (f : Q -> Q) (tolerance : Q) (st st' : state)
    (log log' : list Q) (dv : Q) :
  body f tolerance st log = (Ok st', log') ->
  (mflag st = false -> d st = Some dv) ->
  exists new,
    candidate (f (x0 st)) (f (x1 st)) (f (x2 st)) st = Ok new /\
    (rejected_spec tolerance new st dv ->
     mflag st' = true /\
     log' = log ++ [x0 st; x1 st; x2 st; (x0 st + x1 st) / 2]) /\
    (~ rejected_spec tolerance new st dv ->
     mflag st' = false /\
     log' = log ++ [x0 st; x1 st; x2 st; new]).
Proof.
  intros Hb Hd. apply body_Ok in Hb.
  destruct Hb as (new & nm & Ec & Ea & -> & ->).
  exists new. split; [exact Ec|].
  rewrite update_mflag.
  destruct (acceptance_rejected_iff tolerance new st dv Hd) as [Hr Hk].
  split; intro H.
  - rewrite (Hr H) in Ea. inversion Ea. subst nm. split; reflexivity.
  - rewrite (Hk H) in Ea. inversion Ea. subst nm. split; reflexivity.
Qed.

(** A point between the endpoints is no farther from either of them than
    they are from each other. *)
Lemma width_inside (a b s : Q) :
  (a <= s <= b \/ b <= s <= a) ->
  Qabs (s - a) <= Qabs (b - a) /\ Qabs (b - s) <= Qabs (b - a).
Proof.
  intros [[H1 H2]|[H1 H2]].
  - rewrite (Qabs_pos (s - a)), (Qabs_pos (b - a)), (Qabs_pos (b - s)) by lra.
    split; lra.
  - rewrite (Qabs_neg (s - a)), (Qabs_neg (b - a)), (Qabs_neg (b - s)) by lra.
    split; lra.
Qed.

(** The step that is taken, the kept candidate or the midpoint, lies
    between the endpoints. *)
Lemma acceptance_inside (tolerance new : Q) (st : state) (nm : Q * bool) :
  acceptance tolerance new st = Ok nm ->
  x0 st <= fst nm <= x1 st \/ x1 st <= fst nm <= x0 st.
Proof.
  unfold acceptance, rejects.
  destruct (mflag st), (d st) as [dv|]; eval_test; intro H;
    try discriminate; inversion H; subst; cbn [fst];
    solve [ left; lra_const
          | destruct (Qlt_le_dec (x0 st) (x1 st)); [left|right]; lra_const ].
Qed.

(** C10.  An iteration that completes does not widen the bracket: the
    step [s] it takes (the last point [f] is called on) lies between [x0]
    and [x1], it replaces one of the two, and the swap keeps the
    distance. *)
Theorem width_monotone_C10 (f : Q -> Q) (tolerance : Q) (st st' : state)
    (log log' : list Q) :
  body f tolerance st log = (Ok st', log') ->
  (exists s,
      log' = log ++ [x0 st; x1 st; x2 st; s] /\
      (x0 st <= s <= x1 st \/ x1 st <= s <= x0 st) /\
      ((x0 st' = x0 st /\ x1 st' = s) \/ (x0 st' = s /\ x1 st' = x0 st) \/
       (x0 st' = s /\ x1 st' = x1 st) \/ (x0 st' = x1 st /\ x1 st' = s))) /\
  Qabs (x1 st' - x0 st') <= Qabs (x1 st - x0 st).
Proof.
  intro H. apply body_Ok in H. destruct H as (new & nm & _ & Ha & -> & ->).
  apply acceptance_inside in Ha.
  pose proof (width_inside _ _ _ Ha) as [Hl Hr].
  unfold update.
  destruct (Qltb (f (x0 st) * f (fst nm)) 0),
    (Qltb (Qabs (f (x0 st))) (Qabs (f (x1 st)))); cbn [x0 x1];
    (split; [exists (fst nm); split; [reflexivity|]; split; [exact Ha|]; tauto|]).
  - rewrite Qabs_Qminus. exact Hl.
  - exact Hl.
  - rewrite Qabs_Qminus. exact Hr.
  - exact Hr.
Qed.

(** ** Zero denominators *)

(** Both formulas divide by [f(x1) - f(x0)] or its opposite, in whichever
    branch; the branch test does not compare [f(x0)] with [f(x1)]. *)
Lemma candidate_zero_denominator (fx0 fx1 fx2 : Q) (st : state) :
  fx0 == fx1 -> candidate fx0 fx1 fx2 st = Raise ZeroDivisionError.
Proof.
  intro H. unfold candidate.
  destruct (Qneqb fx0 fx2 && Qneqb fx1 fx2).
  - rewrite div_zero; [reflexivity|].
    setoid_replace (fx0 - fx1) with 0 by lra. ring.
  - rewrite div_zero; [reflexivity|]. lra.
Qed.

(** C8.  A zero denominator is reached from a bracket with a strict sign
    change: on [f_ramp] over [0, 10], with the default budget and
    tolerance, the third iteration starts with [f(x0) = f(x1) = f(x2) = 5],
    takes the secant branch and divides by [f(x1) - f(x0) = 0]; nothing
    guards the division and the call ends in [ZeroDivisionError].  The
    interpolation branch divides by zero as well whenever
    [f(x0) = f(x1)]. *)
Theorem zero_denominator_reached_C8 :
  (exists (st0 st : state) (log : list Q),
      f_ramp 0 * f_ramp 10 < 0 /\
      run (init f_ramp 0 10) = (Ok st0, [0; 10]) /\
      loop_head f_ramp default_max_iter default_tolerance st0 2 st /\
      cond default_max_iter default_tolerance st = true /\
      (x0 st == 10 /\ x1 st == 15 # 2 /\ x2 st == 10) /\
      Qneqb (f_ramp (x0 st)) (f_ramp (x2 st))
        && Qneqb (f_ramp (x1 st)) (f_ramp (x2 st)) = false /\
      f_ramp (x1 st) - f_ramp (x0 st) == 0 /\
      candidate (f_ramp (x0 st)) (f_ramp (x1 st)) (f_ramp (x2 st)) st =
        Raise ZeroDivisionError /\
      run (brents f_ramp default_max_iter default_tolerance 0 10) =
        (Raise ZeroDivisionError, log)) /\
  (forall (fx0 fx1 fx2 : Q) (st : state),
      fx0 == fx1 ->
      Qneqb fx0 fx2 && Qneqb fx1 fx2 = true ->
      candidate fx0 fx1 fx2 st = Raise ZeroDivisionError).
Proof.
  split.
  - eexists. eexists. eexists.
    split; [reflexivity|].
    split; [reflexivity|].
    split.
    { eapply head_next with (log := []).
      - eapply head_next with (log := []).
        + apply head_first.
        + reflexivity.
        + reflexivity.
      - reflexivity.
      - reflexivity. }
    split; [reflexivity|].
    split; [repeat split; reflexivity|].
    split; [reflexivity|].
    split; [reflexivity|].
    split; [reflexivity|].
    vm_compute. reflexivity.
  - intros fx0 fx1 fx2 st H _. apply candidate_zero_denominator. exact H.
Qed.

(** ** The swap on stale values *)

(** C1 does not hold of the code.  On [f(x) = x - 5] over [0, 10] with the
    defaults, the first iteration takes the midpoint 5, a root, and stores
    it in [x0]; the swap test of line 59 compares [fx0] and [fx1], the
    values of [f] at the endpoints the iteration started from, so it does
    not swap, and the iteration ends with [|f(x0)| = 0 < 5 = |f(x1)|]: [x1]
    is not the endpoint with the smaller value. *)
Theorem swap_on_stale_values_C1 :
  exists (st0 st1 : state) (log1 : list Q),
    run (init f_linear 0 10) = (Ok st0, [0; 10]) /\
    cond default_max_iter default_tolerance st0 = true /\
    body f_linear default_tolerance st0 [0; 10] = (Ok st1, log1) /\
    x0 st1 == 5 /\ x1 st1 == 10 /\
    Qabs (f_linear (x0 st1)) < Qabs (f_linear (x1 st1)).
Proof.
  eexists. eexists. eexists.
  split; [reflexivity|].
  split; [reflexivity|].
  split; [reflexivity|].
  split; [reflexivity|].
  split; reflexivity.
Qed.

(** Where the bracket update does keep the sign change: whenever a root in
    [x0] comes with a root in [x1], which [|f(x0)| >= |f(x1)|] at the start
    of the iteration would give. *)
Lemma sign_product (a b c : Q) :
  a * b <= 0 -> 0 <= a * c -> ~ a == 0 -> c * b <= 0.
Proof.
  intros H1 H2 H3.
  assert (Ha : 0 < a * a).
  { destruct (Qlt_le_dec 0 a); [nra|].
    destruct (Qlt_le_dec a 0); [nra|]. exfalso. apply H3. lra. }
  destruct (Qlt_le_dec 0 (c * b)) as [L|L]; [exfalso|exact L].
  assert (H4 : 0 < (a * a) * (c * b)) by (apply Qmult_lt_0_compat; assumption).
  assert (H5 : 0 <= (- (a * b)) * (a * c)) by (apply Qmult_le_0_compat; lra).
  assert (H6 : (a * a) * (c * b) == - ((- (a * b)) * (a * c))) by ring.
  lra.
Qed.

Lemma sign_change_kept_off_root (f : Q -> Q) (tolerance : Q) (st st' : state)
    (log log' : list Q) :
  body f tolerance st log = (Ok st', log') ->
  f (x0 st) * f (x1 st) <= 0 ->
  (f (x0 st) == 0 -> f (x1 st) == 0) ->
  f (x0 st') * f (x1 st') <= 0.
Proof.
  intros H Hs Hroot. apply body_Ok in H.
  destruct H as (new & nm & _ & _ & -> & _). unfold update.
  set (s := fst nm).
  assert (Hkeep : Qltb (f (x0 st) * f s) 0 = false -> f s * f (x1 st) <= 0).
  { intro E. apply Qltb_false in E.
    destruct (Qeq_dec (f (x0 st)) 0) as [Z|NZ].
    - apply Hroot in Z. rewrite Z. lra.
    - apply sign_product with (a := f (x0 st)); assumption. }
  destruct (Qltb (f (x0 st) * f s) 0) eqn:E,
    (Qltb (Qabs (f (x0 st))) (Qabs (f (x1 st)))); cbn [x0 x1].
  - apply Qltb_true in E. lra.
  - apply Qltb_true in E. lra.
  - specialize (Hkeep eq_refl). lra.
  - exact (Hkeep eq_refl).
Qed.

(** C9 does not hold of the code.  On the same run the second iteration
    starts from [x0 = 5], [x1 = 10] with [f(x0) = 0]: the step 7.5 goes to
    [x0] because [fx0 * fnew = 0], and the late swap then gives [x0 = 10],
    [x1 = 7.5].  The third iteration starts with [f(x0) * f(x1) > 0]: the
    root 5 is no longer between the endpoints, and no division by zero
    has happened. *)
Theorem sign_change_lost_C9 :
  exists (st0 st2 : state),
    f_linear 0 * f_linear 10 <= 0 /\
    run (init f_linear 0 10) = (Ok st0, [0; 10]) /\
    loop_head f_linear default_max_iter default_tolerance st0 2 st2 /\
    cond default_max_iter default_tolerance st2 = true /\
    x0 st2 == 10 /\ x1 st2 == 15 # 2 /\
    0 < f_linear (x0 st2) * f_linear (x1 st2).
Proof.
  eexists. eexists.
  split; [vm_compute; discriminate|].
  split; [reflexivity|].
  split.
  { eapply head_next with (log := []).
    - eapply head_next with (log := []).
      + apply head_first.
      + reflexivity.
      + reflexivity.
    - reflexivity.
    - reflexivity. }
  split; [reflexivity|].
  split; [reflexivity|].
  split; reflexivity.
Qed.

(** The whole default call on [f(x) = x - 5] over [0, 10]: it returns 7.5
    after 44 iterations, and 7.5 is not a root. *)
Example brents_linear_default :
  exists (x : Q) (log : list Q),
    run (brents f_linear default_max_iter default_tolerance 0 10) =
      (Ok (x, 44%Z), log) /\
    x == 15 # 2 /\ f_linear x == 5 # 2.
Proof.
  eexists. eexists. split; [vm_compute; reflexivity|].
  split; reflexivity.
Qed.

(** ** The theorems at concrete inputs *)

(** C2 at the state [x0 = 0], [x1 = 6], [x2 = 8], [d = 16] after an
    interpolation step, on [f(x) = x - 5]: the candidate is 5, it meets none
    of the conditions and is the step taken. *)
Lemma acceptance_test_C2_witness :
  exists new st' log',
    body f_linear default_tolerance (mkState 0 6 8 (Some 16) false 1) [] =
      (Ok st', log') /\
    (mflag (mkState 0 6 8 (Some 16) false 1) = false ->
     d (mkState 0 6 8 (Some 16) false 1) = Some 16) /\
    candidate (f_linear 0) (f_linear 6) (f_linear 8)
      (mkState 0 6 8 (Some 16) false 1) = Ok new /\
    new == 5 /\
    ~ rejected_spec default_tolerance new (mkState 0 6 8 (Some 16) false 1) 16 /\
    mflag st' = false /\
    log' = [0; 6; 8; new].
Proof.
  assert (Hd : mflag (mkState 0 6 8 (Some 16) false 1) = false ->
               d (mkState 0 6 8 (Some 16) false 1) = Some 16)
    by (intros _; reflexivity).
  destruct (body f_linear default_tolerance (mkState 0 6 8 (Some 16) false 1) [])
    as [r log'] eqn:Hb.
  destruct r as [st'| |]; try (vm_compute in Hb; discriminate Hb).
  destruct (acceptance_test_C2 f_linear default_tolerance _ _ _ _ 16 Hb Hd)
    as (new & Ec & _ & Hk).
  assert (Hn : new == 5).
  { vm_compute in Ec. inversion Ec. reflexivity. }
  assert (Hr : ~ rejected_spec default_tolerance new
                   (mkState 0 6 8 (Some 16) false 1) 16).
  { vm_compute in Ec. inversion Ec. subst new.
    unfold rejected_spec. cbn [x0 x1 x2 mflag].
    intros [[H|H]|[[H _]|[[_ H]|[[H _]|[_ H]]]]];
      try discriminate H;
      try (apply Qltb_true in H; vm_compute in H; discriminate H);
      try (apply Qle_bool_iff in H; vm_compute in H; discriminate H). }
  exists new, st', log'.
  split; [reflexivity|]. split; [exact Hd|]. split; [exact Ec|].
  split; [exact Hn|]. split; [exact Hr|].
  exact (Hk Hr).
Defined.

(** C3 at [f(x) = x^2 - 2] with [x0 = 0], [x1 = 2], [x2 = 1]: the three
    values -2, 2, -1 differ and the candidate is the interpolation. *)
Lemma candidate_choice_C3_witness :
  ~ f_square 0 == f_square 2 /\
  exists new,
    candidate (f_square 0) (f_square 2) (f_square 1)
      (mkState 0 2 1 (Some 0) false 1) = Ok new /\
    new == inverse_quadratic_spec 0 2 1 (f_square 0) (f_square 2) (f_square 1).
Proof.
  assert (H : ~ f_square 0 == f_square 2)
    by (intro H; vm_compute in H; discriminate H).
  split; [exact H|].
  destruct (candidate_choice_C3 f_square (mkState 0 2 1 (Some 0) false 1) H)
    as (new & E & Hi & _).
  exists new. split; [exact E|].
  apply Hi. split; intro N; vm_compute in N; discriminate N.
Defined.

(** C6 at [f(x) = x^2 - 2] over [1, 2] with tolerance 1: the bracket is
    already that narrow, and the call returns the endpoint 1, where
    [|f|] is 1 against 2, without an iteration. *)
Lemma no_iteration_C6_witness :
  (f_square 1 * f_square 2 <= 0 /\
   (default_max_iter = 0%Z \/ Qabs (1 - 2) <= 1)) /\
  run (brents f_square default_max_iter 1 1 2) = (Ok (1, 0%Z), [1; 2]) /\
  Qabs (f_square 1) <= Qabs (f_square 2).
Proof.
  assert (H1 : f_square 1 * f_square 2 <= 0) by (vm_compute; discriminate).
  assert (H2 : default_max_iter = 0%Z \/ Qabs (1 - 2) <= 1)
    by (right; vm_compute; discriminate).
  split; [auto|].
  exact (no_iteration_C6 f_square default_max_iter 1 1 2 H1 H2).
Defined.

(** C10 at the first iteration on [f(x) = x - 5] over [0, 10]: the bracket
    goes from width 10 to width 5. *)
Lemma width_monotone_C10_witness :
  exists st' log',
    body f_linear default_tolerance (mkState 0 10 0 None true 0) [] =
      (Ok st', log') /\
    Qabs (x1 st' - x0 st') == 5 /\
    Qabs (x1 st' - x0 st') <= Qabs (10 - 0).
Proof.
  pose proof (width_monotone_C10 f_linear default_tolerance
                (mkState 0 10 0 None true 0) _ [] _ eq_refl) as [_ H].
  eexists. eexists.
  split; [reflexivity|].
  split; [reflexivity|].
  exact H.
Defined.

(** ** Further properties of the loop *)

Section LoopRule.

Variable f : Q -> Q.
Variable max_iter : Z.
Variable tolerance : Q.

(** An iteration ends in one of three ways, and calls [f] on the three
    points of the state first; a completed one then calls [f] on the step
    [s], which lies between the endpoints and replaces one of them. *)
Lemma body_shape (st : state) (log : list Q) (r : result state) (log' : list Q) :
  body f tolerance st log = (r, log') ->
  (exists st' s,
      r = Ok st' /\
      log' = log ++ [x0 st; x1 st; x2 st; s] /\
      between (x0 st) (x1 st) s /\
      ((x0 st' = x0 st /\ x1 st' = s) \/ (x0 st' = s /\ x1 st' = x0 st) \/
       (x0 st' = s /\ x1 st' = x1 st) \/ (x0 st' = x1 st /\ x1 st' = s)) /\
      x2 st' = x1 st /\
      steps_taken st' = (steps_taken st + 1)%Z) \/
  ((r = Raise ZeroDivisionError \/ r = Raise UnboundLocalError) /\
   log' = log ++ [x0 st; x1 st; x2 st]).
Proof.
  unfold body, bind, call, lift, ret. rewrite <- !app_assoc. cbn [app].
  destruct (candidate_cases (f (x0 st)) (f (x1 st)) (f (x2 st)) st) as [[new E]|E];
    rewrite E.
  - destruct (acceptance_cases tolerance new st) as [[nm Ea]|(Ea & _)]; rewrite Ea.
    + intro H. inversion H. left.
      exists (update (f (x0 st)) (f (x1 st)) (f (fst nm)) (fst nm) (snd nm) st),
        (fst nm).
      split; [reflexivity|].
      split; [rewrite <- !app_assoc; reflexivity|].
      split; [exact (acceptance_inside _ _ _ _ Ea)|].
      rewrite update_steps. unfold update.
      destruct (Qltb (f (x0 st) * f (fst nm)) 0),
        (Qltb (Qabs (f (x0 st))) (Qabs (f (x1 st)))); cbn [x0 x1 x2]; tauto.
    + intro H. inversion H. right. auto.
  - intro H. inversion H. right. auto.
Qed.

Section Rule.

Variable I : state -> list Q -> Prop.
Variable K : list Q -> Prop.

Hypothesis I_K : forall st log, I st log -> K log.

Hypothesis body_I :
  forall st log r log',
    I st log -> cond max_iter tolerance st = true ->
    body f tolerance st log = (r, log') ->
    match r with Ok st' => I st' log' | _ => K log' end.

(** The rule of the loop: what every iteration keeps holds when the loop
    stops, and what the log keeps holds however the loop ends. *)
Lemma loop_rule (fuel : nat) :
  forall st log r log',
    loop f max_iter tolerance fuel st log = (r, log') ->
    I st log ->
    match r with
    | Ok st' => I st' log' /\ cond max_iter tolerance st' = false
    | _ => K log'
    end.
Proof.
  induction fuel as [|k IH]; intros st log r log'; cbn [loop];
    destruct (cond max_iter tolerance st) eqn:Hc; unfold ret; intros H Hi;
    try (inversion H; subst; auto; fail).
  - inversion H; subst. exact (I_K _ _ Hi).
  - unfold bind in H.
    destruct (body f tolerance st log) as [rb l1] eqn:Hb.
    pose proof (body_I _ _ _ _ Hi Hc Hb) as Hi1.
    destruct rb as [st1|e|].
    + exact (IH _ _ _ _ H Hi1).
    + inversion H; subst. exact Hi1.
    + inversion H; subst. exact Hi1.
Qed.

End Rule.

End LoopRule.

Section CallInvariant.

Variable f : Q -> Q.
Variable max_iter : Z.
Variable tolerance : Q.
Variables a b : Q.

Lemma between_left : between a b a.
Proof.
  unfold between. destruct (Qlt_le_dec a b); [left|right]; lra.
Qed.

Lemma between_right : between a b b.
Proof.
  unfold between. destruct (Qlt_le_dec a b); [left|right]; lra.
Qed.

Lemma between_convex (p q s : Q) :
  between a b p -> between a b q -> between p q s -> between a b s.
Proof.
  unfold between. intros Hp Hq Hs.
  destruct (Qlt_le_dec a b); [left|right];
    destruct Hp as [Hp|Hp], Hq as [Hq|Hq], Hs as [Hs|Hs]; lra.
Qed.

Lemma call_inv_log (st : state) (log : list Q) :
  call_inv max_iter a b st log -> log_inv max_iter a b log.
Proof.
  intros (_ & _ & Hf & Hl & Hs). split; [exact Hf|lia].
Qed.

Lemma call_inv_body (st : state) (log : list Q) (r : result state)
    (log' : list Q) :
  call_inv max_iter a b st log ->
  cond max_iter tolerance st = true ->
  body f tolerance st log = (r, log') ->
  match r with
  | Ok st' => call_inv max_iter a b st' log'
  | _ => log_inv max_iter a b log'
  end.
Proof.
  intros ((B0 & B1 & B2) & (I0 & I1 & I2) & Hf & Hl & Hs) Hc Hb.
  assert (Hlt : (steps_taken st < max_iter)%Z).
  { unfold cond in Hc. apply andb_true_iff in Hc.
    destruct Hc as [Hc _]. apply Z.ltb_lt in Hc. exact Hc. }
  apply body_shape in Hb.
  destruct Hb as [(st' & s & -> & -> & Hs' & He & H2 & Hn)|([-> | ->] & ->)].
  - assert (Bs : between a b s) by exact (between_convex _ _ _ B0 B1 Hs').
    assert (J0 : In (x0 st) (log ++ [x0 st; x1 st; x2 st; s]))
      by (apply in_or_app; left; exact I0).
    assert (J1 : In (x1 st) (log ++ [x0 st; x1 st; x2 st; s]))
      by (apply in_or_app; left; exact I1).
    assert (Js : In s (log ++ [x0 st; x1 st; x2 st; s]))
      by (apply in_or_app; right; cbn [In]; auto).
    unfold call_inv. rewrite H2, Hn.
    split; [|split; [|split; [|split]]].
    + destruct He as [[-> ->]|[[-> ->]|[[-> ->]|[-> ->]]]]; auto.
    + destruct He as [[-> ->]|[[-> ->]|[[-> ->]|[-> ->]]]]; auto.
    + apply Forall_app. split; [exact Hf|].
      repeat (apply Forall_cons; [assumption|]). apply Forall_nil.
    + rewrite length_app. cbn [length]. lia.
    + lia.
  - split.
    + apply Forall_app. split; [exact Hf|].
      repeat (apply Forall_cons; [assumption|]). apply Forall_nil.
    + rewrite length_app. cbn [length]. lia.
  - split.
    + apply Forall_app. split; [exact Hf|].
      repeat (apply Forall_cons; [assumption|]). apply Forall_nil.
    + rewrite length_app. cbn [length]. lia.
Qed.

(** The invariant holds of every call. *)
Lemma call_invariant :
  match run (brents_state f max_iter tolerance a b) with
  | (Ok st, log) =>
      call_inv max_iter a b st log /\ cond max_iter tolerance st = false
  | (_, log) => log_inv max_iter a b log
  end.
Proof.
  unfold run, brents_state, bind.
  destruct (init_cases f a b []) as [(_ & E)|(_ & E)]; rewrite E; cbn [app].
  - split; [|cbn [length]; lia].
    apply Forall_cons; [apply between_left|].
    apply Forall_cons; [apply between_right|]. apply Forall_nil.
  - match goal with |- context [loop _ _ _ _ ?s _] => set (st0 := s) end.
    destruct (loop f max_iter tolerance (Z.to_nat max_iter) st0 [a; b])
      as [r log] eqn:El.
    assert (H0 : call_inv max_iter a b st0 [a; b]).
    { subst st0. unfold call_inv.
      pose proof between_left. pose proof between_right.
      destruct (Qltb (Qabs (f a)) (Qabs (f b))); cbn [x0 x1 x2 steps_taken In length];
        (split; [auto|]); (split; [auto|]);
        (split; [repeat (apply Forall_cons; [assumption|]); apply Forall_nil|]);
        lia. }
    pose proof (loop_rule f max_iter tolerance (call_inv max_iter a b)
                  (log_inv max_iter a b) call_inv_log call_inv_body
                  _ _ _ _ _ El H0) as H.
    destruct r; exact H.
Qed.

End CallInvariant.

(** X1.  Under exact real arithmetic: whatever the outcome of a call, [f]
    is only ever called on points of the closed interval between the two
    bracket endpoints.  (On doubles a nan candidate passes the tests of
    lines 40-44 and [f] is called on it.) *)
Theorem evaluations_inside_bracket (f : Q -> Q) (max_iter : Z)
    (tolerance a b : Q) :
  Forall (between a b) (snd (run (brents f max_iter tolerance a b))).
Proof.
  rewrite brents_of_state.
  pose proof (call_invariant f max_iter tolerance a b) as H.
  destruct (run (brents_state f max_iter tolerance a b)) as [[st|e|] log];
    cbn [snd].
  - destruct H as ((_ & _ & Hf & _) & _). exact Hf.
  - exact (proj1 H).
  - exact (proj1 H).
Qed.



(** ** Further properties of one iteration *)

Lemma rejects_reversed (tolerance new : Q) (st : state) :
  x1 st < x0 st -> rejects tolerance new st = Ok true.
Proof.
  intro H. unfold rejects.
  destruct (Qltb new ((3 * x0 st + x1 st) / 4)) eqn:E1;
    cbn [or_else and_then bindR]; [reflexivity|].
  destruct (Qltb (x1 st) new) eqn:E2;
    cbn [or_else and_then bindR]; [reflexivity|].
  apply Qltb_false in E1. apply Qltb_false in E2. exfalso. lra_const.
Qed.

(** X4.  Under exact real arithmetic: the range test of line 40 is written
    for [x0 <= x1], and in an iteration that starts with [x1 < x0] every
    candidate is rejected, so the step is the midpoint and [mflag] is set
    true.  [d] is not read. *)
Theorem reversed_bracket_bisects (f : Q -> Q) (tolerance : Q) (st st' : state)
    (log log' : list Q) :
  body f tolerance st log = (Ok st', log') ->
  x1 st < x0 st ->
  mflag st' = true /\
  log' = log ++ [x0 st; x1 st; x2 st; (x0 st + x1 st) / 2].
Proof.
  intros Hb Hr. apply body_Ok in Hb.
  destruct Hb as (new & nm & _ & Ea & -> & ->).
  unfold acceptance in Ea. rewrite (rejects_reversed _ _ _ Hr) in Ea.
  cbn [bindR] in Ea. inversion Ea. subst nm.
  rewrite update_mflag. split; reflexivity.
Qed.

(** X4 on [f(x) = x - 5] from [x0 = 10], [x1 = 0]. *)
Lemma reversed_bracket_bisects_witness :
  exists st' log',
    body f_linear default_tolerance (mkState 10 0 10 None true 0) [] =
      (Ok st', log') /\
    x1 (mkState 10 0 10 None true 0) < x0 (mkState 10 0 10 None true 0) /\
    mflag st' = true /\
    log' = [10; 0; 10; (10 + 0) / 2].
Proof.
  destruct (body f_linear default_tolerance (mkState 10 0 10 None true 0) [])
    as [r log'] eqn:Hb.
  destruct r as [st'| |]; try (vm_compute in Hb; discriminate Hb).
  assert (Hr : x1 (mkState 10 0 10 None true 0) < x0 (mkState 10 0 10 None true 0))
    by reflexivity.
  exists st', log'. split; [reflexivity|]. split; [exact Hr|].
  exact (reversed_bracket_bisects f_linear default_tolerance _ _ _ _ Hb Hr).
Defined.

Lemma acceptance_flag (tolerance new : Q) (st : state) (nm : Q * bool) :
  acceptance tolerance new st = Ok nm ->
  snd nm = true -> fst nm = (x0 st + x1 st) / 2.
Proof.
  unfold acceptance.
  destruct (rejects tolerance new st) as [[|]| |]; cbn [bindR];
    intros H Hm; inversion H; subst; cbn [fst snd] in *;
    [reflexivity|discriminate].
Qed.

Lemma half_width (a b : Q) :
  Qabs ((a + b) / 2 - a) == Qabs (b - a) / 2 /\
  Qabs (b - (a + b) / 2) == Qabs (b - a) / 2.
Proof.
  destruct (Qlt_le_dec a b).
  - rewrite (Qabs_pos ((a + b) / 2 - a)), (Qabs_pos (b - (a + b) / 2)),
      (Qabs_pos (b - a)) by lra_const.
    split; lra_const.
  - rewrite (Qabs_neg ((a + b) / 2 - a)), (Qabs_neg (b - (a + b) / 2)),
      (Qabs_neg (b - a)) by lra_const.
    split; lra_const.
Qed.

(** X5.  Under exact real arithmetic: an iteration that ends with [mflag]
    true was a bisection, and it halves the distance between the endpoints
    exactly. *)
Theorem bisection_halves (f : Q -> Q) (tolerance : Q) (st st' : state)
    (log log' : list Q) :
  body f tolerance st log = (Ok st', log') ->
  mflag st' = true ->
  Qabs (x1 st' - x0 st') == Qabs (x1 st - x0 st) / 2.
Proof.
  intros Hb Hm. apply body_Ok in Hb.
  destruct Hb as (new & nm & _ & Ea & -> & _).
  rewrite update_mflag in Hm.
  rewrite (acceptance_flag _ _ _ _ Ea Hm).
  destruct (half_width (x0 st) (x1 st)) as [Hl Hr].
  unfold update.
  destruct (Qltb (f (x0 st) * f ((x0 st + x1 st) / 2)) 0),
    (Qltb (Qabs (f (x0 st))) (Qabs (f (x1 st)))); cbn [x0 x1].
  - rewrite Qabs_Qminus. exact Hl.
  - exact Hl.
  - rewrite Qabs_Qminus. exact Hr.
  - exact Hr.
Qed.

(** X5 at the first iteration on [f(x) = x - 5] over [0, 10]. *)
Lemma bisection_halves_witness :
  exists st' log',
    body f_linear default_tolerance (mkState 0 10 0 None true 0) [] =
      (Ok st', log') /\
    mflag st' = true /\
    Qabs (x1 st' - x0 st') == Qabs (10 - 0) / 2.
Proof.
  destruct (body f_linear default_tolerance (mkState 0 10 0 None true 0) [])
    as [r log'] eqn:Hb.
  destruct r as [st'| |]; try (vm_compute in Hb; discriminate Hb).
  assert (Hm : mflag st' = true).
  { vm_compute in Hb. inversion Hb. reflexivity. }
  exists st', log'. split; [reflexivity|]. split; [exact Hm|].
  exact (bisection_halves f_linear default_tolerance _ _ _ _ Hb Hm).
Defined.

Lemma candidate_nonzero (fx0 fx1 fx2 : Q) (st : state) :
  ~ fx0 == fx1 -> exists new, candidate fx0 fx1 fx2 st = Ok new.
Proof.
  intro H. unfold candidate.
  assert (D10 : ~ fx1 - fx0 == 0) by (intro; apply H; lra).
  destruct (Qneqb fx0 fx2) eqn:E02; cbn [andb];
    [destruct (Qneqb fx1 fx2) eqn:E12|].
  - apply Qneqb_true in E02. apply Qneqb_true in E12.
    assert (D01 : ~ fx0 - fx1 == 0) by (intro; apply H; lra).
    assert (D02 : ~ fx0 - fx2 == 0) by (intro; apply E02; lra).
    assert (D12 : ~ fx1 - fx2 == 0) by (intro; apply E12; lra).
    assert (D20 : ~ fx2 - fx0 == 0) by (intro; apply E02; lra).
    assert (D21 : ~ fx2 - fx1 == 0) by (intro; apply E12; lra).
    rewrite !div_nonzero;
      try (intro N; apply Qmult_integral in N; tauto).
    cbn [bindR]. eexists. reflexivity.
  - rewrite div_nonzero by exact D10. cbn [bindR]. eexists. reflexivity.
  - rewrite div_nonzero by exact D10. cbn [bindR]. eexists. reflexivity.
Qed.

(** X6.  Under exact real arithmetic: an iteration ends in
    [ZeroDivisionError] exactly when [f] takes the same value at the two
    endpoints it starts from; [f] has then been called on [x0], [x1] and
    [x2].  (On doubles a product of two nonzero differences can underflow
    to zero.) *)
Theorem zero_division_iff (f : Q -> Q) (tolerance : Q) (st : state)
    (log : list Q) :
  (fst (body f tolerance st log) = Raise ZeroDivisionError <->
   f (x0 st) == f (x1 st)) /\
  (fst (body f tolerance st log) = Raise ZeroDivisionError ->
   snd (body f tolerance st log) = log ++ [x0 st; x1 st; x2 st]).
Proof.
  unfold body, bind, call, lift, ret. rewrite <- !app_assoc. cbn [app].
  destruct (Qeq_dec (f (x0 st)) (f (x1 st))) as [E|N].
  - rewrite (candidate_zero_denominator _ _ (f (x2 st)) st E). cbn [fst snd].
    split; [split; auto|auto].
  - destruct (candidate_nonzero _ _ (f (x2 st)) st N) as [new Ec]. rewrite Ec.
    destruct (acceptance_cases tolerance new st) as [[nm Ea]|(Ea & _)];
      rewrite Ea; cbn [fst snd];
      (split; [split; [discriminate|contradiction]|discriminate]).
Qed.

(** ** Further properties of a call *)

(** X7.  The first iteration never interpolates: [x2] starts as [x0], so
    the branch test fails and the candidate is the secant step through the
    two (normalized) endpoints. *)
Theorem first_candidate_secant (f : Q -> Q) (a b : Q) (st0 : state)
    (log0 : list Q) :
  run (init f a b) = (Ok st0, log0) ->
  ~ f a == f b ->
  x2 st0 = x0 st0 /\
  candidate (f (x0 st0)) (f (x1 st0)) (f (x2 st0)) st0 =
    Ok (secant_spec (x0 st0) (x1 st0) (f (x0 st0)) (f (x1 st0))).
Proof.
  intros Ei N. unfold run in Ei.
  destruct (init_cases f a b []) as [(_ & E)|(_ & E)]; rewrite Ei in E;
    inversion E as [[E0 El]]. clear E Ei. try subst st0.
  destruct (Qltb (Qabs (f a)) (Qabs (f b))); cbn [x0 x1 x2];
    (split; [reflexivity|]); unfold candidate, Qneqb at 1;
    rewrite Qeq_bool_refl; cbn [negb andb x0 x1];
    (rewrite div_nonzero; [reflexivity|intro H; apply N; lra]).
Qed.

(** X7 on [f(x) = x^2 - 2] over [1, 2], where the endpoints are swapped. *)
Lemma first_candidate_secant_witness :
  exists st0 log0,
    run (init f_square 1 2) = (Ok st0, log0) /\
    ~ f_square 1 == f_square 2 /\
    (x0 st0 = 2 /\ x1 st0 = 1 /\ x2 st0 = 2) /\
    candidate (f_square 2) (f_square 1) (f_square 2) st0 =
      Ok (secant_spec 2 1 (f_square 2) (f_square 1)).
Proof.
  assert (H : ~ f_square 1 == f_square 2)
    by (intro H; vm_compute in H; discriminate H).
  exists (mkState 2 1 2 None true 0), [1; 2].
  split; [reflexivity|]. split; [exact H|]. split; [auto|].
  exact (proj2 (first_candidate_secant f_square 1 2
                  (mkState 2 1 2 None true 0) [1; 2] eq_refl H)).
Defined.

(** X8.  A bracket whose two endpoints are both exact roots is not returned
    as it is: when the loop is entered ([max_iter > 0] and the bracket is
    wider than the tolerance) the first iteration divides by
    [f(x1) - f(x0) = 0] and the call ends in [ZeroDivisionError], after [f]
    was called on [x0], [x1] and then on the three points of the state. *)
Theorem root_endpoints_raise (f : Q -> Q) (max_iter : Z) (tolerance a b : Q) :
  f a == 0 -> f b == 0 ->
  (0 < max_iter)%Z ->
  tolerance < Qabs (b - a) ->
  run (brents f max_iter tolerance a b) =
    (Raise ZeroDivisionError, [a; b; a; b; a]).
Proof.
  intros Ha Hb Hm Hw. rewrite brents_of_state.
  unfold run, brents_state, bind.
  destruct (init_cases f a b []) as [(Hp & _)|(_ & E)].
  { exfalso. rewrite Ha in Hp. lra. }
  rewrite E. cbn [app].
  assert (Hl : Qltb (Qabs (f a)) (Qabs (f b)) = false).
  { apply Qltb_false. rewrite Ha, Hb. apply Qle_refl. }
  rewrite Hl.
  destruct (Z.to_nat max_iter) as [|k] eqn:Ek; [lia|].
  cbn [loop].
  assert (Hc : cond max_iter tolerance (mkState a b a None true 0) = true).
  { unfold cond. cbn [steps_taken x0 x1]. apply andb_true_iff. split.
    - apply Z.ltb_lt. exact Hm.
    - apply Qltb_true. exact Hw. }
  rewrite Hc. unfold bind, body, bind, call, lift. cbn [x0 x1 x2 app].
  rewrite candidate_zero_denominator; [reflexivity|].
  rewrite Ha, Hb. reflexivity.
Qed.

(** X8 on [f(x) = x (x - 1)] over [0, 1] with the defaults. *)
Lemma root_endpoints_raise_witness :
  (f_two_roots 0 == 0 /\ f_two_roots 1 == 0 /\
   (0 < default_max_iter)%Z /\ default_tolerance < Qabs (1 - 0)) /\
  run (brents f_two_roots default_max_iter default_tolerance 0 1) =
    (Raise ZeroDivisionError, [0; 1; 0; 1; 0]).
Proof.
  assert (H1 : f_two_roots 0 == 0) by reflexivity.
  assert (H2 : f_two_roots 1 == 0) by reflexivity.
  assert (H3 : (0 < default_max_iter)%Z) by reflexivity.
  assert (H4 : default_tolerance < Qabs (1 - 0)) by reflexivity.
  split; [auto|].
  exact (root_endpoints_raise f_two_roots default_max_iter
           default_tolerance 0 1 H1 H2 H3 H4).
Defined.

(** X9.  A negative [max_iter] is not refused: a call that passes the
    bracket check then returns the normalized endpoint and 0, as with
    [max_iter = 0], so the returned count is above the budget. *)
Theorem negative_budget (f : Q -> Q) (max_iter : Z) (tolerance a b : Q) :
  (max_iter < 0)%Z ->
  f a * f b <= 0 ->
  run (brents f max_iter tolerance a b) =
    (Ok (if Qltb (Qabs (f a)) (Qabs (f b)) then a else b, 0%Z), [a; b]).
Proof.
  intros Hm Hs. rewrite brents_of_state.
  unfold run, brents_state, bind.
  destruct (init_cases f a b []) as [(Hp & _)|(_ & E)].
  { exfalso. exact (Qlt_not_le _ _ Hp Hs). }
  rewrite E. cbn [app].
  rewrite loop_exit.
  - destruct (Qltb (Qabs (f a)) (Qabs (f b))); reflexivity.
  - unfold cond. apply andb_false_iff. left. apply Z.ltb_ge.
    destruct (Qltb (Qabs (f a)) (Qabs (f b))); cbn [steps_taken]; lia.
Qed.

(** X9 on [f(x) = x^2 - 2] over [1, 2] with [max_iter = -1]. *)
Lemma negative_budget_witness :
  ((-1 < 0)%Z /\ f_square 1 * f_square 2 <= 0) /\
  run (brents f_square (-1) default_tolerance 1 2) = (Ok (1, 0%Z), [1; 2]).
Proof.
  assert (H1 : (-1 < 0)%Z) by reflexivity.
  assert (H2 : f_square 1 * f_square 2 <= 0) by (vm_compute; discriminate).
  split; [auto|].
  exact (negative_budget f_square (-1) default_tolerance 1 2 H1 H2).
Defined.

(** On exact rationals a negative tolerance never stops the loop: a call
    with [max_iter >= 0] that returns has used the whole budget. *)
Lemma negative_tolerance_uses_budget (f : Q -> Q) (max_iter : Z)
    (tolerance a b : Q) (x : Q) (n : Z) (log : list Q) :
  tolerance < 0 ->
  (0 <= max_iter)%Z ->
  run (brents f max_iter tolerance a b) = (Ok (x, n), log) ->
  n = max_iter.
Proof.
  intros Ht Hm. rewrite brents_of_state.
  pose proof (call_invariant f max_iter tolerance a b) as H.
  destruct (run (brents_state f max_iter tolerance a b)) as [[st|e|] l];
    intro E; inversion E; subst.
  destruct H as ((_ & _ & _ & _ & Hs) & Hc).
  unfold cond in Hc. apply andb_false_iff in Hc. destruct Hc as [Hc|Hc].
  - apply Z.ltb_ge in Hc. lia.
  - apply Qltb_false in Hc. exfalso.
    pose proof (Qabs_nonneg (x1 st - x0 st)). lra.
Qed.


(** *** The order of the endpoints *)

Section LogIndependence.

Variable f : Q -> Q.
Variable max_iter : Z.
Variable tolerance : Q.

(** The log is written, never read: the outcome does not depend on it. *)
Lemma body_fst (st : state) (log log2 : list Q) :
  fst (body f tolerance st log) = fst (body f tolerance st log2).
Proof.
  unfold body, bind, call, lift, ret.
  destruct (candidate (f (x0 st)) (f (x1 st)) (f (x2 st)) st) as [new| |];
    [|reflexivity|reflexivity].
  destruct (acceptance tolerance new st) as [nm| |]; reflexivity.
Qed.

Lemma loop_fst (fuel : nat) :
  forall (st : state) (log log2 : list Q),
    fst (loop f max_iter tolerance fuel st log) =
    fst (loop f max_iter tolerance fuel st log2).
Proof.
  induction fuel as [|k IH]; intros st log log2; cbn [loop];
    destruct (cond max_iter tolerance st); try reflexivity.
  unfold bind. pose proof (body_fst st log log2) as H.
  destruct (body f tolerance st log) as [r1 l1],
    (body f tolerance st log2) as [r2 l2].
  cbn [fst] in H. subst r2. destruct r1; [apply IH|reflexivity|reflexivity].
Qed.

End LogIndependence.

(** X11.  When [|f(a)|] and [|f(b)|] differ, the order in which the two
    endpoints are passed does not matter: the normalization puts the
    endpoint with the smaller [|f|] in [x1] either way, and the two calls
    have the same outcome (the same exception, or the same estimate and
    count). *)
Theorem endpoint_order_irrelevant (f : Q -> Q) (max_iter : Z)
    (tolerance a b : Q) :
  ~ Qabs (f a) == Qabs (f b) ->
  fst (run (brents f max_iter tolerance a b)) =
  fst (run (brents f max_iter tolerance b a)).
Proof.
  intro N.
  assert (H : fst (run (brents_state f max_iter tolerance a b)) =
              fst (run (brents_state f max_iter tolerance b a))).
  { unfold run, brents_state, bind.
    destruct (init_cases f a b []) as [(Hp & E)|(Hp & E)],
      (init_cases f b a []) as [(Hq & E')|(Hq & E')];
      rewrite E, E'; cbn [app]; try reflexivity; try (exfalso; lra).
    destruct (Qltb (Qabs (f a)) (Qabs (f b))) eqn:L1,
      (Qltb (Qabs (f b)) (Qabs (f a))) eqn:L2.
    - apply Qltb_true in L1. apply Qltb_true in L2. exfalso. lra.
    - apply loop_fst.
    - apply loop_fst.
    - apply Qltb_false in L1. apply Qltb_false in L2. exfalso. apply N.
      apply Qle_antisym; assumption. }
  rewrite !brents_of_state.
  destruct (run (brents_state f max_iter tolerance a b)) as [r1 l1],
    (run (brents_state f max_iter tolerance b a)) as [r2 l2].
  cbn [fst] in H. subst r2. destruct r1; reflexivity.
Qed.

(** On a tie the order does matter: over [0, 10] and over [10, 0] the
    function [f(x) = x - 5] gives two estimates. *)
Example endpoint_order_on_tie :
  exists x y,
    fst (run (brents f_linear 3 default_tolerance 0 10)) = Ok (x, 3%Z) /\
    fst (run (brents f_linear 3 default_tolerance 10 0)) = Ok (y, 3%Z) /\
    x == 15 # 2 /\ y == 5 # 2.
Proof.
  eexists. eexists. split; [vm_compute; reflexivity|].
  split; [vm_compute; reflexivity|]. split; reflexivity.
Qed.

(** X11 on [f(x) = x^2 - 2] over [1, 2]. *)
Lemma endpoint_order_irrelevant_witness :
  ~ Qabs (f_square 1) == Qabs (f_square 2) /\
  fst (run (brents f_square 3 default_tolerance 1 2)) =
  fst (run (brents f_square 3 default_tolerance 2 1)).
Proof.
  assert (H : ~ Qabs (f_square 1) == Qabs (f_square 2))
    by (intro H; vm_compute in H; discriminate H).
  split; [exact H|].
  exact (endpoint_order_irrelevant f_square 3 default_tolerance 1 2 H).
Defined.

(** *** The sign change, where no exact root is met *)

Section SignKept.

Variable f : Q -> Q.
Variable max_iter : Z.
Variable tolerance : Q.

Lemma body_zero_division (st : state) (log log' : list Q) :
  body f tolerance st log = (Raise ZeroDivisionError, log') ->
  f (x0 st) == f (x1 st).
Proof.
  unfold body, bind, call, lift, ret.
  destruct (Qeq_dec (f (x0 st)) (f (x1 st))) as [E|N]; [intros _; exact E|].
  destruct (candidate_nonzero _ _ (f (x2 st)) st N) as [new Ec]. rewrite Ec.
  destruct (acceptance_cases tolerance new st) as [[nm Ea]|(Ea & _)];
    rewrite Ea; discriminate.
Qed.

(** Opposite strict signs at the endpoints are kept by an iteration whose
    step is not an exact root. *)
Lemma sign_kept_strict (st st' : state) (log log' : list Q) :
  body f tolerance st log = (Ok st', log') ->
  f (x0 st) * f (x1 st) < 0 ->
  (forall x, In x log' -> ~ f x == 0) ->
  f (x0 st') * f (x1 st') < 0.
Proof.
  intros Hb Hs Hn. apply body_Ok in Hb.
  destruct Hb as (new & nm & _ & _ & -> & ->).
  set (s := fst nm).
  assert (Hfs : ~ f s == 0).
  { apply Hn. apply in_or_app. right. cbn [In]. auto. }
  assert (H0 : ~ f (x0 st) == 0).
  { intro Z. rewrite Z in Hs. lra. }
  assert (H1 : ~ f (x1 st) == 0).
  { intro Z. rewrite Z in Hs. lra. }
  assert (Hkeep : Qltb (f (x0 st) * f s) 0 = false -> f s * f (x1 st) < 0).
  { intro E. apply Qltb_false in E.
    assert (Hle : f s * f (x1 st) <= 0).
    { apply sign_product with (a := f (x0 st)); [lra|exact E|exact H0]. }
    destruct (Qeq_dec (f s * f (x1 st)) 0) as [Z|NZ]; [|lra].
    apply Qmult_integral in Z. tauto. }
  unfold update.
  destruct (Qltb (f (x0 st) * f s) 0) eqn:E,
    (Qltb (Qabs (f (x0 st))) (Qabs (f (x1 st)))); cbn [x0 x1].
  - apply Qltb_true in E. lra.
  - apply Qltb_true in E. exact E.
  - specialize (Hkeep eq_refl). lra.
  - exact (Hkeep eq_refl).
Qed.

(** The loop only appends to the log. *)
Lemma loop_log_prefix (fuel : nat) :
  forall (st : state) (log : list Q),
    exists suffix,
      snd (loop f max_iter tolerance fuel st log) = log ++ suffix.
Proof.
  induction fuel as [|k IH]; intros st log; cbn [loop];
    destruct (cond max_iter tolerance st);
    try (exists []; rewrite app_nil_r; reflexivity).
  unfold bind.
  destruct (body f tolerance st log) as [r l1] eqn:Hb.
  apply body_shape in Hb.
  destruct Hb as [(st' & s & -> & -> & _)|([-> | ->] & ->)].
  - destruct (IH st' (log ++ [x0 st; x1 st; x2 st; s])) as [suffix E].
    rewrite E. rewrite <- app_assoc. eexists. reflexivity.
  - eexists. reflexivity.
  - eexists. reflexivity.
Qed.

Lemma loop_sign_kept (fuel : nat) :
  forall (st : state) (log : list Q),
    (max_iter - steps_taken st <= Z.of_nat fuel)%Z ->
    (mflag st = false -> d st <> None) ->
    f (x0 st) * f (x1 st) < 0 ->
    (forall x, In x (snd (loop f max_iter tolerance fuel st log)) ->
               ~ f x == 0) ->
    exists st' log',
      loop f max_iter tolerance fuel st log = (Ok st', log') /\
      f (x0 st') * f (x1 st') < 0 /\
      cond max_iter tolerance st' = false.
Proof.
  induction fuel as [|k IH]; intros st log Hfuel Hd Hs Hn; cbn [loop] in *;
    destruct (cond max_iter tolerance st) eqn:Hc;
    try (exists st, log; split; [reflexivity|split; [exact Hs|exact Hc]]).
  - exfalso. unfold cond in Hc. apply andb_true_iff in Hc.
    destruct Hc as [Hc _]. apply Z.ltb_lt in Hc. lia.
  - assert (Hlt : (steps_taken st < max_iter)%Z).
    { unfold cond in Hc. apply andb_true_iff in Hc.
      destruct Hc as [Hc _]. apply Z.ltb_lt in Hc. exact Hc. }
    unfold bind in *.
    destruct (body_cases f tolerance st log)
      as [(st1 & log1 & Hb)|[(log1 & Hb)|((log1 & Hb) & Hm & Hnone)]].
    + rewrite Hb in *.
      pose proof (body_steps _ _ _ _ _ _ Hb) as (Hst & Hd1 & _).
      destruct (loop_log_prefix k st1 log1) as [suffix Ep].
      apply IH.
      * lia.
      * intros _. rewrite Hd1. discriminate.
      * apply (sign_kept_strict _ _ _ _ Hb Hs).
        intros x Hx. apply Hn. rewrite Ep. apply in_or_app. left. exact Hx.
      * exact Hn.
    + exfalso. apply body_zero_division in Hb. rewrite Hb in Hs.
      pose proof (Qmult_le_0_compat (f (x1 st)) (f (x1 st))) as Hsq.
      destruct (Qlt_le_dec (f (x1 st)) 0) as [L|L]; [nra|nra].
    + exfalso. exact (Hd Hm Hnone).
Qed.

End SignKept.

Lemma no_root_on_log (f : Q -> Q) (log : list Q) :
  forallb (fun x => Qneqb (f x) 0) log = true ->
  forall x, In x log -> ~ f x == 0.
Proof.
  intros H x Hx. rewrite forallb_forall in H.
  apply Qneqb_true. exact (H x Hx).
Qed.

(** X12.  Under exact real arithmetic: from a bracket with strictly
    opposite signs, and as long as [f] is not exactly zero at any point it
    is called on, the call raises nothing and returns, and the two
    endpoints it ends with still carry strictly opposite signs of [f]; when
    it returns before the budget is used up, they are no farther apart
    than the tolerance.  (On doubles the product [fx0 * fnew] can underflow
    to zero and send the step to the wrong endpoint.) *)
Theorem sign_change_kept_without_exact_root (f : Q -> Q) (max_iter : Z)
    (tolerance a b : Q) :
  f a * f b < 0 ->
  (forall x, In x (snd (run (brents f max_iter tolerance a b))) ->
             ~ f x == 0) ->
  exists st log,
    run (brents_state f max_iter tolerance a b) = (Ok st, log) /\
    run (brents f max_iter tolerance a b) = (Ok (x1 st, steps_taken st), log) /\
    f (x0 st) * f (x1 st) < 0 /\
    ((steps_taken st < max_iter)%Z -> Qabs (x1 st - x0 st) <= tolerance).
Proof.
  intros Hs Hn. rewrite brents_of_state in *.
  unfold run, brents_state, bind in *.
  destruct (init_cases f a b []) as [(Hp & _)|(_ & E)]; [exfalso; lra|].
  rewrite E in *. cbn [app] in *.
  match goal with |- context [loop _ _ _ _ ?s _] => set (st0 := s) in * end.
  assert (H0 : steps_taken st0 = 0%Z /\ mflag st0 = true /\
               f (x0 st0) * f (x1 st0) < 0).
  { subst st0. destruct (Qltb (Qabs (f a)) (Qabs (f b))); cbn [x0 x1];
      repeat split; lra. }
  destruct H0 as (Hz & Hm & Hs0).
  destruct (loop_sign_kept f max_iter tolerance (Z.to_nat max_iter) st0 [a; b])
    as (st & log & El & Hsign & Hc).
  - rewrite Hz. lia.
  - rewrite Hm. discriminate.
  - exact Hs0.
  - intros x Hx. apply Hn.
    destruct (loop f max_iter tolerance (Z.to_nat max_iter) st0 [a; b])
      as [[s|e|] l]; exact Hx.
  - exists st, log. rewrite El.
    split; [reflexivity|]. split; [reflexivity|]. split; [exact Hsign|].
    intro Hlt. unfold cond in Hc. apply andb_false_iff in Hc.
    destruct Hc as [Hc|Hc].
    + apply Z.ltb_ge in Hc. lia.
    + apply Qltb_false in Hc. exact Hc.
Qed.

(** X12 at three iterations on [f(x) = x^2 - 2] over [0, 2]. *)
Lemma sign_change_kept_without_exact_root_witness :
  (f_square 0 * f_square 2 < 0 /\
   forall x, In x (snd (run (brents f_square 3 default_tolerance 0 2))) ->
             ~ f_square x == 0) /\
  exists st log,
    run (brents_state f_square 3 default_tolerance 0 2) = (Ok st, log) /\
    run (brents f_square 3 default_tolerance 0 2) =
      (Ok (x1 st, steps_taken st), log) /\
    f_square (x0 st) * f_square (x1 st) < 0 /\
    ((steps_taken st < 3)%Z -> Qabs (x1 st - x0 st) <= default_tolerance).
Proof.
  assert (H1 : f_square 0 * f_square 2 < 0) by reflexivity.
  assert (H2 : forall x,
             In x (snd (run (brents f_square 3 default_tolerance 0 2))) ->
             ~ f_square x == 0)
    by (apply no_root_on_log; vm_compute; reflexivity).
  split; [auto|].
  exact (sign_change_kept_without_exact_root f_square 3 default_tolerance
           0 2 H1 H2).
Defined.

(** *** An exact root met by a step *)

(** X13.  When the step of an iteration is an exact root of [f], and the
    iteration started with [|f(x0)| >= |f(x1)|], the root is stored in [x0]:
    [fx0 * fnew = 0] is not negative, and the swap test looks at the values
    from the start of the iteration.  [x1], the estimate, is unchanged, and
    unless it is a root itself it now has the larger [|f|]. *)
Theorem exact_root_goes_to_x0 (f : Q -> Q) (tolerance : Q) (st st' : state)
    (log : list Q) (s : Q) :
  body f tolerance st log = (Ok st', log ++ [x0 st; x1 st; x2 st; s]) ->
  f s == 0 ->
  Qabs (f (x1 st)) <= Qabs (f (x0 st)) ->
  x0 st' = s /\ x1 st' = x1 st /\
  (~ f (x1 st) == 0 -> Qabs (f (x0 st')) < Qabs (f (x1 st'))).
Proof.
  intros Hb Hz Hord. apply body_Ok in Hb.
  destruct Hb as (new & nm & _ & _ & -> & El).
  apply app_inv_head in El. inversion El as [Es]. rewrite <- Es. clear El Es.
  unfold update.
  assert (E1 : Qltb (f (x0 st) * f s) 0 = false).
  { apply Qltb_false. rewrite Hz. lra. }
  assert (E2 : Qltb (Qabs (f (x0 st))) (Qabs (f (x1 st))) = false).
  { apply Qltb_false. exact Hord. }
  rewrite E1, E2. cbn [x0 x1].
  split; [reflexivity|]. split; [reflexivity|].
  intro N. rewrite Hz. change (Qabs 0) with 0.
  pose proof (Qabs_nonneg (f (x1 st))) as Hp.
  apply Qle_lt_or_eq in Hp. destruct Hp as [Hp|Z]; [exact Hp|].
  exfalso. apply N.
  pose proof (Qle_Qabs (f (x1 st))) as Hu.
  pose proof (Qle_Qabs (- f (x1 st))) as Hl.
  rewrite Qabs_opp in Hl. lra.
Qed.

(** X13 at the first iteration on [f(x) = x - 5] over [0, 10]: the step is
    the root 5. *)
Lemma exact_root_goes_to_x0_witness :
  exists st' s,
    body f_linear default_tolerance (mkState 0 10 0 None true 0) [] =
      (Ok st', [] ++ [0; 10; 0; s]) /\
    (f_linear s == 0 /\ Qabs (f_linear 10) <= Qabs (f_linear 0)) /\
    x0 st' = s /\ x1 st' = 10 /\
    (~ f_linear 10 == 0 -> Qabs (f_linear (x0 st')) < Qabs (f_linear (x1 st'))).
Proof.
  eexists. eexists.
  split; [reflexivity|].
  assert (H1 : f_linear ((0 + 10) / 2) == 0) by reflexivity.
  assert (H2 : Qabs (f_linear 10) <= Qabs (f_linear 0))
    by (vm_compute; discriminate).
  split; [split; [exact H1|exact H2]|].
  exact (exact_root_goes_to_x0 f_linear default_tolerance
           (mkState 0 10 0 None true 0) _ [] _ eq_refl H1 H2).
Defined.

(** ** The program on doubles *)

Module DoubleFacts.

Import PrimFloat.
Import Double.

Local Open Scope float_scope.

(** Evaluates a chain of tests on doubles in its order. *)
Ltac eval_float_test :=
  cbn [Bool.eqb or_else and_then bindR read];
  repeat (match goal with
          | |- context [PrimFloat.ltb ?a ?b] => destruct (PrimFloat.ltb a b)
          | |- context [PrimFloat.leb ?a ?b] => destruct (PrimFloat.leb a b)
          end;
          cbn [Bool.eqb or_else and_then bindR read]).

(** Comparisons of doubles, from the specification of the primitive
    operations: two values compare one way, the other way, as equal, or
    one of them is nan. *)
Lemma SFcompare_antisym (x y : SpecFloat.spec_float) :
  SpecFloat.SFcompare y x =
  match SpecFloat.SFcompare x y with
  | Some c => Some (CompOpp c)
  | None => None
  end.
Proof.
  destruct x as [sx|sx| |sx mx ex], y as [sy|sy| |sy my ey]; cbn;
    try destruct sx; try destruct sy; try reflexivity;
    rewrite (Z.compare_antisym ex ey); destruct (ex ?= ey)%Z; cbn;
    try reflexivity;
    rewrite (Pos.compare_cont_antisym mx my Eq); cbn;
    rewrite ?CompOpp_involutive; reflexivity.
Qed.

Lemma SFcompare_None (x y : SpecFloat.spec_float) :
  SpecFloat.SFcompare x y = None ->
  x = SpecFloat.S754_nan \/ y = SpecFloat.S754_nan.
Proof.
  destruct x as [sx|sx| |sx mx ex], y as [sy|sy| |sy my ey]; cbn; auto;
    discriminate.
Qed.

Lemma Prim2SF_nan (a : float) :
  FloatOps.Prim2SF a = SpecFloat.S754_nan -> a = nan.
Proof.
  intro H. apply FloatAxioms.Prim2SF_inj. rewrite H. reflexivity.
Qed.

(** Where [a < b] is false, [b <= a] holds unless a nan is compared. *)
Lemma not_ltb_leb (a b : float) :
  (a <? b) = false -> (b <=? a) = true \/ a = nan \/ b = nan.
Proof.
  rewrite FloatAxioms.ltb_spec, FloatAxioms.leb_spec.
  unfold SpecFloat.SFltb, SpecFloat.SFleb.
  rewrite (SFcompare_antisym (FloatOps.Prim2SF a) (FloatOps.Prim2SF b)).
  destruct (SpecFloat.SFcompare (FloatOps.Prim2SF a) (FloatOps.Prim2SF b))
    as [[| |]|] eqn:E; cbn; intro H; try discriminate H; auto.
  right. apply SFcompare_None in E.
  destruct E as [E|E]; apply Prim2SF_nan in E; auto.
Qed.

(** An absolute value is above every negative number, unless it is nan. *)
Lemma abs_above_negative (t w : float) :
  (t <? 0) = true -> (t <? abs w) = false -> abs w = nan.
Proof.
  rewrite !FloatAxioms.ltb_spec. intros Ht Hw.
  apply Prim2SF_nan. rewrite FloatAxioms.abs_spec in *.
  change (FloatOps.Prim2SF 0) with (SpecFloat.S754_zero false) in Ht.
  destruct (FloatOps.Prim2SF t) as [st|st| |st mt et],
    (FloatOps.Prim2SF w) as [sw|sw| |sw mw ew];
    cbn in *; try reflexivity; try discriminate;
    destruct st; cbn in *; discriminate.
Qed.

Section Facts.

Variable f : float -> float.
Variable max_iter : Z.
Variable tolerance : float.

Lemma div_cases_double (a b : float) :
  div a b = Ok (a / b) \/ div a b = Raise ZeroDivisionError.
Proof. unfold div. destruct (b =? 0); auto. Qed.

Lemma candidate_cases_double (fx0 fx1 fx2 : float) (st : state) :
  (exists new, candidate fx0 fx1 fx2 st = Ok new) \/
  candidate fx0 fx1 fx2 st = Raise ZeroDivisionError.
Proof.
  unfold candidate.
  destruct (negb (fx0 =? fx2) && negb (fx1 =? fx2))%bool.
  - destruct (div_cases_double (x0 st * fx1 * fx2) ((fx0 - fx1) * (fx0 - fx2)))
      as [E|E]; rewrite E; cbn [bindR]; [|now right].
    destruct (div_cases_double (x1 st * fx0 * fx2) ((fx1 - fx0) * (fx1 - fx2)))
      as [E1|E1]; rewrite E1; cbn [bindR]; [|now right].
    destruct (div_cases_double (x2 st * fx1 * fx0) ((fx2 - fx0) * (fx2 - fx1)))
      as [E2|E2]; rewrite E2; cbn [bindR]; [|now right].
    left. eexists. reflexivity.
  - destruct (div_cases_double (fx1 * (x1 st - x0 st)) (fx1 - fx0)) as [E|E];
      rewrite E; cbn [bindR]; [|now right].
    left. eexists. reflexivity.
Qed.

Lemma rejects_cases_double (new : float) (st : state) :
  (exists r, rejects tolerance new st = Ok r) \/
  (rejects tolerance new st = Raise UnboundLocalError /\
   mflag st = false /\ d st = None).
Proof.
  unfold rejects.
  destruct (mflag st), (d st) as [dv|]; eval_float_test;
    solve [ left; eexists; reflexivity | right; auto ].
Qed.

Lemma acceptance_cases_double (new : float) (st : state) :
  (exists nm, acceptance tolerance new st = Ok nm) \/
  (acceptance tolerance new st = Raise UnboundLocalError /\
   mflag st = false /\ d st = None).
Proof.
  unfold acceptance.
  destruct (rejects_cases_double new st) as [[r E]|(E & H)]; rewrite E;
    cbn [bindR].
  - left. destruct r; eexists; reflexivity.
  - right. auto.
Qed.

(** How an iteration ends on doubles: completed, with [f] called on the
    three points of the state and then on the step, which replaces one
    endpoint; or raising after the first three calls. *)
Lemma body_shape_double (st : state) (log : list float) (r : result state)
    (log' : list float) :
  body f tolerance st log = (r, log') ->
  (exists st' s,
      r = Ok st' /\
      log' = log ++ [x0 st; x1 st; x2 st; s] /\
      ((x0 st' = x0 st /\ x1 st' = s) \/ (x0 st' = s /\ x1 st' = x0 st) \/
       (x0 st' = s /\ x1 st' = x1 st) \/ (x0 st' = x1 st /\ x1 st' = s)) /\
      x2 st' = x1 st /\
      d st' = Some (x2 st) /\
      steps_taken st' = (steps_taken st + 1)%Z) \/
  (r = Raise ZeroDivisionError /\ log' = log ++ [x0 st; x1 st; x2 st]) \/
  (r = Raise UnboundLocalError /\ log' = log ++ [x0 st; x1 st; x2 st] /\
   mflag st = false /\ d st = None).
Proof.
  unfold body, bind, call, lift, ret. rewrite <- !app_assoc. cbn [app].
  destruct (candidate_cases_double (f (x0 st)) (f (x1 st)) (f (x2 st)) st)
    as [[new E]|E]; rewrite E.
  - destruct (acceptance_cases_double new st) as [[nm Ea]|(Ea & Hm)]; rewrite Ea.
    + intro H. inversion H. left.
      exists (update (f (x0 st)) (f (x1 st)) (f (fst nm)) (fst nm) (snd nm) st),
        (fst nm).
      split; [reflexivity|].
      split; [rewrite <- !app_assoc; reflexivity|].
      unfold update.
      destruct (f (x0 st) * f (fst nm) <? 0),
        (abs (f (x0 st)) <? abs (f (x1 st)));
        cbn [x0 x1 x2 d steps_taken]; tauto.
    + intro H. inversion H. right. right. tauto.
  - intro H. inversion H. right. left. auto.
Qed.

Lemma cond_steps (st : state) :
  cond max_iter tolerance st = true -> (steps_taken st < max_iter)%Z.
Proof.
  unfold cond. intro H. apply andb_true_iff in H.
  destruct H as [H _]. apply Z.ltb_lt in H. exact H.
Qed.

Lemma loop_head_trans_double (st0 st1 st2 : state) (n m : nat) :
  loop_head f max_iter tolerance st0 n st1 ->
  loop_head f max_iter tolerance st1 m st2 ->
  loop_head f max_iter tolerance st0 (m + n) st2.
Proof.
  intros H1 H2. induction H2 as [|k st st' log log' _ IH Hc Hb].
  - exact H1.
  - exact (head_next _ _ _ _ _ _ _ _ _ IH Hc Hb).
Qed.

(** The loop on doubles, on enough fuel: it stops by itself in a state
    that fails the loop test, reached by as many completed iterations as
    it counts, or an iteration raises [ZeroDivisionError]. *)
Lemma loop_fuel_enough_double (fuel : nat) :
  forall (st : state) (log : list float),
    (max_iter - steps_taken st <= Z.of_nat fuel)%Z ->
    (mflag st = false -> d st <> None) ->
    (exists st' log' n,
        loop f max_iter tolerance fuel st log = (Ok st', log') /\
        loop_head f max_iter tolerance st n st' /\
        steps_taken st' = (steps_taken st + Z.of_nat n)%Z /\
        cond max_iter tolerance st' = false /\
        (steps_taken st' <= Z.max (steps_taken st) max_iter)%Z /\
        Z.of_nat (length log') = (Z.of_nat (length log) + 4 * Z.of_nat n)%Z /\
        (In (x0 st) log -> In (x1 st) log ->
         In (x0 st') log' /\ In (x1 st') log')) \/
    (exists log',
        loop f max_iter tolerance fuel st log = (Raise ZeroDivisionError, log')).
Proof.
  induction fuel as [|k IH]; intros st log Hfuel Hd; cbn [loop];
    destruct (cond max_iter tolerance st) eqn:Hc;
    try (left; exists st, log, O; unfold ret;
         split; [reflexivity|]; split; [constructor|];
         split; [lia|]; split; [exact Hc|]; split; [lia|];
         split; [lia|auto]).
  - exfalso. apply cond_steps in Hc. lia.
  - pose proof (cond_steps _ Hc) as Hlt.
    unfold bind.
    destruct (body f tolerance st log) as [r log1] eqn:Hb.
    destruct (body_shape_double _ _ _ _ Hb)
      as [(st1 & s & -> & El & He & H2 & Hd1 & Hs)|[(-> & _)|(-> & _ & Hm & Hn)]].
    + destruct (IH st1 log1)
        as [(st' & log' & n & Hl & Hh & Hst & Hc' & Hmax & Hlen & Hin)|(log' & Hl)].
      * lia.
      * intros _. rewrite Hd1. discriminate.
      * left. exists st', log', (n + 1)%nat.
        split; [exact Hl|].
        split.
        { apply loop_head_trans_double with st1; [|exact Hh].
          eapply head_next; [constructor|exact Hc|exact Hb]. }
        split; [lia|]. split; [exact Hc'|]. split; [lia|].
        split.
        { rewrite Hlen, El, length_app. cbn [length]. lia. }
        intros I0 I1. apply Hin.
        -- rewrite El.
           destruct He as [[-> _]|[[-> _]|[[-> _]|[-> _]]]];
             apply in_or_app; (left; assumption) || (right; cbn [In]; auto).
        -- rewrite El.
           destruct He as [[_ ->]|[[_ ->]|[[_ ->]|[_ ->]]]];
             apply in_or_app; (left; assumption) || (right; cbn [In]; auto).
      * right. exists log'. exact Hl.
    + right. exists log1. reflexivity.
    + exfalso. exact (Hd Hm Hn).
Qed.

(** What the bracket check leaves, on doubles. *)
Lemma init_cases_double (a b : float) (log : list float) :
  ((0 <? f a * f b) = true /\
   init f a b log = (Raise ValueError, log ++ [a; b])) \/
  ((0 <? f a * f b) = false /\
   init f a b log =
     (Ok (if abs (f a) <? abs (f b)
          then mkState b a b None true 0
          else mkState a b a None true 0), log ++ [a; b])).
Proof.
  unfold init, bind, call, raise, ret. rewrite <- app_assoc. cbn [app].
  destruct (0 <? f a * f b).
  - left. auto.
  - right. split; [reflexivity|].
    destruct (abs (f a) <? abs (f b)); reflexivity.
Qed.

Lemma brents_of_state_double (a b : float) :
  run (brents f max_iter tolerance a b) =
  match run (brents_state f max_iter tolerance a b) with
  | (Ok st, log) => (Ok (x1 st, steps_taken st), log)
  | (Raise e, log) => (Raise e, log)
  | (OutOfFuel, log) => (OutOfFuel, log)
  end.
Proof.
  unfold run, brents, bind, ret.
  destruct (brents_state f max_iter tolerance a b []) as [[st|e|] log];
    reflexivity.
Qed.

(** The ways a call on doubles can end. *)
Lemma brents_state_cases_double (a b : float) :
  ((0 <? f a * f b) = true /\
   run (brents_state f max_iter tolerance a b) = (Raise ValueError, [a; b])) \/
  ((0 <? f a * f b) = false /\
   exists st0,
     st0 = (if abs (f a) <? abs (f b)
            then mkState b a b None true 0
            else mkState a b a None true 0) /\
     run (init f a b) = (Ok st0, [a; b]) /\
     run (brents_state f max_iter tolerance a b) =
       loop f max_iter tolerance (Z.to_nat max_iter) st0 [a; b] /\
     ((exists st log,
          run (brents_state f max_iter tolerance a b) = (Ok st, log) /\
          loop_head f max_iter tolerance st0 (Z.to_nat (steps_taken st)) st /\
          cond max_iter tolerance st = false /\
          (0 <= steps_taken st <= Z.max 0 max_iter)%Z /\
          Z.of_nat (length log) = (2 + 4 * steps_taken st)%Z /\
          In (x1 st) log) \/
      (exists log,
          run (brents_state f max_iter tolerance a b) =
            (Raise ZeroDivisionError, log)))).
Proof.
  unfold run, brents_state, bind.
  destruct (init_cases_double a b []) as [(Hs & E)|(Hs & E)]; rewrite E;
    cbn [app].
  - left. auto.
  - right. split; [exact Hs|].
    eexists. split; [reflexivity|]. split; [reflexivity|].
    split; [reflexivity|].
    match goal with |- context [loop _ _ _ _ ?s _] => set (st0 := s) end.
    assert (H0 : steps_taken st0 = 0%Z /\ mflag st0 = true /\
                 In (x0 st0) [a; b] /\ In (x1 st0) [a; b]).
    { subst st0. destruct (abs (f a) <? abs (f b));
        cbn [steps_taken mflag x0 x1 In]; repeat split; auto. }
    destruct H0 as (H0 & Hm & I0 & I1).
    destruct (loop_fuel_enough_double (Z.to_nat max_iter) st0 [a; b])
      as [(st & log & n & E1 & Hh & Hst & Hc & Hmax & Hlen & Hin)|(log & E1)].
    + rewrite H0. lia.
    + rewrite Hm. discriminate.
    + left. exists st, log. rewrite E1.
      split; [reflexivity|].
      split.
      { replace (Z.to_nat (steps_taken st)) with n by lia. exact Hh. }
      split; [exact Hc|].
      split; [lia|].
      split; [cbn [length] in Hlen; lia|].
      exact (proj2 (Hin I0 I1)).
    + right. exists log. exact E1.
Qed.

End Facts.

(** *** The bracket check *)

(** C4, as the program has it.  The check is on the product as computed in
    double arithmetic.  When that product is greater than zero the call
    raises [ValueError] with [f] called exactly twice, on [x0] and then on
    [x1].  Otherwise (the computed product is zero, negative or nan) the
    check passes after the same two calls and the call goes on with the
    loop: its outcome is the outcome of the loop run from the normalized
    initial state, the estimate and the count being read off the state the
    loop stops in, and it is not [ValueError]. *)
Theorem bracket_check_C4 (f : float -> float) (max_iter : Z)
    (tolerance a b : float) :
  ((0 <? f a * f b) = true ->
   run (brents f max_iter tolerance a b) = (Raise ValueError, [a; b])) /\
  ((0 <? f a * f b) = false ->
   exists st0,
     st0 = (if abs (f a) <? abs (f b)
            then mkState b a b None true 0
            else mkState a b a None true 0) /\
     run (init f a b) = (Ok st0, [a; b]) /\
     run (brents f max_iter tolerance a b) =
       match loop f max_iter tolerance (Z.to_nat max_iter) st0 [a; b] with
       | (Ok st, log) => (Ok (x1 st, steps_taken st), log)
       | (Raise e, log) => (Raise e, log)
       | (OutOfFuel, log) => (OutOfFuel, log)
       end /\
     fst (run (brents f max_iter tolerance a b)) <> Raise ValueError /\
     fst (run (brents f max_iter tolerance a b)) <> OutOfFuel).
Proof.
  rewrite brents_of_state_double.
  destruct (brents_state_cases_double f max_iter tolerance a b)
    as [(Hs & E)|(Hs & st0 & E0 & Ei & El & Hr)]; rewrite Hs.
  - split; intro H; [|discriminate H].
    rewrite E. reflexivity.
  - split; intro H; [discriminate H|].
    exists st0. split; [exact E0|]. split; [exact Ei|].
    split; [rewrite El; reflexivity|].
    destruct Hr as [(st & log & E & _)|(log & E)]; rewrite E;
      split; discriminate.
Qed.

(** C4 as worded does not hold of the program: [f(x) = 2^-600 (x + 5)] is
    strictly positive at 0 and at 10, so the product of the two values is
    positive, but the double product underflows to zero.  The check
    passes, the endpoints are swapped, and the call returns after 44
    iterations. *)
Lemma bracket_check_C4_underflow :
  (0 <? f_tiny 0) = true /\
  (0 <? f_tiny 10) = true /\
  f_tiny 0 * f_tiny 10 = 0 /\
  run (init f_tiny 0 10) = (Ok (mkState 10 0 10 None true 0), [0; 10]) /\
  fst (run (brents f_tiny 50 default_tolerance 0 10)) = Ok (0, 44%Z).
Proof.
  repeat split; vm_compute; reflexivity.
Qed.

(** *** Termination and the returned pair *)

(** C5, as the program has it.  A call with a budget [max_iter >= 0] that
    passes the bracket check and raises no [ZeroDivisionError] returns
    [(x1, steps_taken)] of the state the loop stopped in.  That state is
    reached by exactly [steps_taken] completed iterations (four calls of
    [f] each, after the two of the check), [steps_taken <= max_iter], and
    the loop stopped because the budget was used up or because the width
    test [abs(x1 - x0) > tolerance] of line 26 was false: then
    [abs(x1 - x0) <= tolerance], unless the width or the tolerance is
    nan. *)
Theorem brents_returns_C5 (f : float -> float) (max_iter : Z)
    (tolerance a b : float) :
  (0 <= max_iter)%Z ->
  (0 <? f a * f b) = false ->
  fst (run (brents f max_iter tolerance a b)) <> Raise ZeroDivisionError ->
  exists st0 st log,
    run (init f a b) = (Ok st0, [a; b]) /\
    loop_head f max_iter tolerance st0 (Z.to_nat (steps_taken st)) st /\
    run (brents f max_iter tolerance a b) = (Ok (x1 st, steps_taken st), log) /\
    Z.of_nat (length log) = (2 + 4 * steps_taken st)%Z /\
    (0 <= steps_taken st <= max_iter)%Z /\
    (steps_taken st = max_iter \/
     ((tolerance <? abs (x1 st - x0 st)) = false /\
      ((abs (x1 st - x0 st) <=? tolerance) = true \/
       abs (x1 st - x0 st) = nan \/ tolerance = nan))).
Proof.
  intros Hmax Hs Hz. rewrite brents_of_state_double in *.
  destruct (brents_state_cases_double f max_iter tolerance a b)
    as [(Hp & _)|(_ & st0 & _ & Ei & _ & Hr)].
  - rewrite Hp in Hs. discriminate Hs.
  - destruct Hr as [(st & log & E & Hh & Hc & Hb & Hlen & _)|(log & E)].
    + exists st0, st, log. rewrite E.
      split; [exact Ei|]. split; [exact Hh|]. split; [reflexivity|].
      split; [exact Hlen|]. split; [lia|].
      unfold cond in Hc. apply andb_false_iff in Hc. destruct Hc as [Hc|Hc].
      * left. apply Z.ltb_ge in Hc. lia.
      * right. split; [exact Hc|].
        destruct (not_ltb_leb _ _ Hc) as [H|[H|H]]; auto.
    + exfalso. rewrite E in Hz. apply Hz. reflexivity.
Qed.

(** C5 at the default call on [f(x) = x^2 - 2] over [0, 2]. *)
Lemma brents_returns_C5_witness :
  ((0 <= 50)%Z /\
   (0 <? f_square 0 * f_square 2) = false /\
   fst (run (brents f_square 50 default_tolerance 0 2)) <>
     Raise ZeroDivisionError) /\
  exists st0 st log,
    run (init f_square 0 2) = (Ok st0, [0; 2]) /\
    loop_head f_square 50 default_tolerance st0 (Z.to_nat (steps_taken st)) st /\
    run (brents f_square 50 default_tolerance 0 2) =
      (Ok (x1 st, steps_taken st), log) /\
    Z.of_nat (length log) = (2 + 4 * steps_taken st)%Z /\
    (0 <= steps_taken st <= 50)%Z /\
    (steps_taken st = 50%Z \/
     ((default_tolerance <? abs (x1 st - x0 st)) = false /\
      ((abs (x1 st - x0 st) <=? default_tolerance) = true \/
       abs (x1 st - x0 st) = nan \/ default_tolerance = nan))).
Proof.
  assert (H1 : (0 <= 50)%Z) by (vm_compute; discriminate).
  assert (H2 : (0 <? f_square 0 * f_square 2) = false)
    by (vm_compute; reflexivity).
  assert (H3 : fst (run (brents f_square 50 default_tolerance 0 2))
               <> Raise ZeroDivisionError) by (vm_compute; discriminate).
  split; [auto|].
  exact (brents_returns_C5 f_square 50 default_tolerance 0 2 H1 H2 H3).
Defined.

(** C5 as worded does not hold of the program, in three ways.  With
    [max_iter = -1] the call returns the count 0, which is above the
    budget.  On [f_ramp] over [0, 10], a bracket with a strict sign change,
    the call does not return: it raises [ZeroDivisionError].  On
    [f(x) = 2^1020 (x - 5)] over [0, 16] with [max_iter = 2] the first
    secant step is [inf / -inf = nan], which passes every comparison of
    lines 40-44 and becomes [x0]; the width test is then false and the
    call returns after one iteration, with the budget not used up and
    [abs(x1 - x0) <= tolerance] false as well. *)
Lemma brents_returns_C5_fails :
  (run (brents f_square (-1) default_tolerance 1 2) = (Ok (1, 0%Z), [1; 2]) /\
   (-1 < 0)%Z) /\
  ((f_ramp 0 <? 0) = true /\ (0 <? f_ramp 10) = true /\
   fst (run (brents f_ramp 50 default_tolerance 0 10)) =
     Raise ZeroDivisionError) /\
  ((f_huge_linear 0 <? 0) = true /\ (0 <? f_huge_linear 16) = true /\
   run (brents_state f_huge_linear 2 default_tolerance 0 16) =
     (Ok (mkState nan 0 0 (Some 16) false 1), [0; 16; 16; 0; 16; nan]) /\
   run (brents f_huge_linear 2 default_tolerance 0 16) =
     (Ok (0, 1%Z), [0; 16; 16; 0; 16; nan]) /\
   (abs (0 - nan) <=? default_tolerance) = false).
Proof.
  repeat split; vm_compute; reflexivity.
Qed.

(** *** Where rounding decides

    The properties of the exact embedding that speak of signs and widths
    need its arithmetic.  On [f(x) = 2^-600 (x - 5)] over [0, 16] no value
    of [f] met is zero, but in the second iteration the product
    [fx0 * fnew] of a positive and a negative value underflows to [-0.0],
    which is not below zero: the step 4 replaces [x0] instead of [x1], the
    late swap follows, and the call ends with [x0 = 0], [x1 = 4], where [f]
    is negative at both. *)
Example sign_change_lost_by_underflow :
  (f_tiny_linear 0 <? 0) = true /\
  (0 <? f_tiny_linear 16) = true /\
  run (brents_state f_tiny_linear 2 default_tolerance 0 16) =
    (Ok (mkState 0 4 0 (Some 0) true 2), [0; 16; 16; 0; 16; 8; 8; 0; 0; 4]) /\
  (f_tiny_linear 0 <? 0) = true /\ (f_tiny_linear 4 <? 0) = true.
Proof.
  repeat split; vm_compute; reflexivity.
Qed.

(** *** A negative tolerance *)

(** X10, on doubles.  With a negative tolerance the width test stops the
    loop only on a nan width: a call with [max_iter >= 0] that returns has
    made exactly [max_iter] iterations, or ends with [abs(x1 - x0)] nan. *)
Theorem negative_tolerance_budget_or_nan (f : float -> float) (max_iter : Z)
    (tolerance a b : float) (x : float) (n : Z) (log : list float) :
  (tolerance <? 0) = true ->
  (0 <= max_iter)%Z ->
  run (brents f max_iter tolerance a b) = (Ok (x, n), log) ->
  exists st,
    run (brents_state f max_iter tolerance a b) = (Ok st, log) /\
    x = x1 st /\ n = steps_taken st /\
    (n = max_iter \/ abs (x1 st - x0 st) = nan).
Proof.
  intros Ht Hm. rewrite brents_of_state_double.
  destruct (brents_state_cases_double f max_iter tolerance a b)
    as [(_ & E)|(_ & st0 & _ & _ & _ & [(st & l & E & _ & Hc & Hs & _)|(l & E)])];
    rewrite E; intro H; inversion H; subst.
  exists st. split; [reflexivity|]. split; [reflexivity|].
  split; [reflexivity|].
  unfold cond in Hc. apply andb_false_iff in Hc. destruct Hc as [Hc|Hc].
  - left. apply Z.ltb_ge in Hc. lia.
  - right. exact (abs_above_negative _ _ Ht Hc).
Qed.

(** X10 on [f(x) = 2^1020 (x - 5)] over [0, 16] with budget 2 and tolerance
    -1: the call returns after one iteration, with a nan width. *)
Lemma negative_tolerance_budget_or_nan_witness :
  ((-1 <? 0) = true /\ (0 <= 2)%Z) /\
  run (brents f_huge_linear 2 (-1) 0 16) =
    (Ok (0, 1%Z), [0; 16; 16; 0; 16; nan]) /\
  exists st,
    run (brents_state f_huge_linear 2 (-1) 0 16) =
      (Ok st, [0; 16; 16; 0; 16; nan]) /\
    0 = x1 st /\ 1%Z = steps_taken st /\
    (1%Z = 2%Z \/ abs (x1 st - x0 st) = nan).
Proof.
  assert (H1 : (-1 <? 0) = true) by reflexivity.
  assert (H2 : (0 <= 2)%Z) by (vm_compute; discriminate).
  assert (H3 : run (brents f_huge_linear 2 (-1) 0 16) =
               (Ok (0, 1%Z), [0; 16; 16; 0; 16; nan]))
    by (vm_compute; reflexivity).
  split; [auto|]. split; [exact H3|].
  exact (negative_tolerance_budget_or_nan f_huge_linear 2 (-1) 0 16 _ _ _
           H1 H2 H3).
Defined.

(** *** The estimate *)

(** X3, on doubles.  The estimate a call returns is one of the points [f]
    was called on during the call: an endpoint passed in, or the step of
    an iteration. *)
Theorem estimate_evaluated (f : float -> float) (max_iter : Z)
    (tolerance a b : float) (x : float) (n : Z) (log : list float) :
  run (brents f max_iter tolerance a b) = (Ok (x, n), log) ->
  In x log.
Proof.
  rewrite brents_of_state_double.
  destruct (brents_state_cases_double f max_iter tolerance a b)
    as [(_ & E)|(_ & st0 & _ & _ & _ & [(st & l & E & _ & _ & _ & _ & Hin)|(l & E)])];
    rewrite E; intro H; inversion H; subst.
  exact Hin.
Qed.

(** X3 at the default call on [f(x) = x^2 - 2] over [0, 2]. *)
Lemma estimate_evaluated_witness :
  exists x n log,
    run (brents f_square 50 default_tolerance 0 2) = (Ok (x, n), log) /\
    In x log.
Proof.
  destruct (run (brents f_square 50 default_tolerance 0 2)) as [r log] eqn:E.
  destruct r as [[x n]| |]; try (vm_compute in E; discriminate E).
  exists x, n, log. split; [reflexivity|].
  exact (estimate_evaluated f_square 50 default_tolerance 0 2 x n log E).
Defined.

End DoubleFacts.
